(** * braintree: batch feeder, scoring loop and soft-tree prediction graph

    A shallow embedding of [braintree.py]:
    - [TensorFlowData], the minibatch feeder over a pair of numpy arrays;
    - [TensorFlowModel.score], the evaluation loop driven by the feeder;
    - [BrainTree._build_predictions] and [_build_split_prob], the tensor
      algebra of the soft decision forest.

    The graph is embedded twice: over the real numbers, which is the
    arithmetic its formulas are written in, and in binary32 ([Binary32]),
    which is the arithmetic [tf.float32] runs them in. *)

From Stdlib Require Import List Arith Lia ZArith Bool Permutation.
From Stdlib Require Import Reals Lra.
From Stdlib Require SpecFloat.
Import ListNotations.

Set Implicit Arguments.

(** ** Error monad for calls that may raise *)

Definition bind {X Y : Type} (m : option X) (k : X -> option Y) : option Y :=
  match m with
  | Some x => k x
  | None => None
  end.

Notation "x <- m ;; k" := (bind m (fun x => k))
  (at level 61, m at next level, right associativity).
Notation "' p <- m ;; k" := (bind m (fun p => k))
  (at level 61, p pattern, m at next level, right associativity).

Fixpoint mapM {X Y : Type} (f : X -> option Y) (l : list X) : option (list Y) :=
  match l with
  | [] => Some []
  | x :: t => y <- f x ;; ys <- mapM f t ;; Some (y :: ys)
  end.

(** ** numpy arrays of rank 1, 2 and 3 *)

Section Ndarray.
Variable A : Type.

(** An array carries its trailing dimensions, so that the shape of an
    array with no rows is still known. *)
Inductive ndarray : Type :=
  | Arr1 (xs : list A)
  | Arr2 (ncols : nat) (rows : list (list A))
  | Arr3 (d1 d2 : nat) (blocks : list (list (list A))).

Definition shape (a : ndarray) : list nat :=
  match a with
  | Arr1 xs => [length xs]
  | Arr2 c rows => [length rows; c]
  | Arr3 d1 d2 blocks => [length blocks; d1; d2]
  end.

(** Every row has the declared width. *)
Definition well_shaped (a : ndarray) : Prop :=
  match a with
  | Arr1 _ => True
  | Arr2 c rows => Forall (fun r => length r = c) rows
  | Arr3 d1 d2 blocks =>
      Forall (fun b => length b = d1 /\ Forall (fun r => length r = d2) b) blocks
  end.

(** [a.ravel()]: the elements in row-major order. *)
Definition ravel (a : ndarray) : list A :=
  match a with
  | Arr1 xs => xs
  | Arr2 _ rows => concat rows
  | Arr3 _ _ blocks => concat (concat blocks)
  end.

(** The python slice [l[start:stop]] for [0 <= start], [0 <= stop]. *)
Definition slice {X : Type} (start stop : nat) (l : list X) : list X :=
  firstn (stop - start) (skipn start l).

(** [a[start:stop, :]]: two indices need at least two axes. *)
Definition index_rows (a : ndarray) (start stop : nat) : option ndarray :=
  match a with
  | Arr1 _ => None
  | Arr2 c rows => Some (Arr2 c (slice start stop rows))
  | Arr3 d1 d2 blocks => Some (Arr3 d1 d2 (slice start stop blocks))
  end.

(** [a[order, :]]: integer-array indexing along the first axis. *)
Definition take_rows (a : ndarray) (order : list nat) : option ndarray :=
  match a with
  | Arr1 _ => None
  | Arr2 c rows =>
      rows' <- mapM (nth_error rows) order ;; Some (Arr2 c rows')
  | Arr3 d1 d2 blocks =>
      blocks' <- mapM (nth_error blocks) order ;; Some (Arr3 d1 d2 blocks')
  end.

(** [n] consecutive pieces of [k] elements. *)
Definition chunks {X : Type} (n k : nat) (l : list X) : list (list X) :=
  map (fun i => slice (i * k) (i * k + k) l) (seq 0 n).

(** [np.reshape(a, (n,))]. *)
Definition reshape1 (a : ndarray) (n : nat) : option ndarray :=
  let flat := ravel a in
  if length flat =? n then Some (Arr1 flat) else None.

(** [np.reshape(a, (n0, n1, n2))]. *)
Definition reshape3 (a : ndarray) (n0 n1 n2 : nat) : option ndarray :=
  let flat := ravel a in
  if length flat =? n0 * n1 * n2
  then Some (Arr3 n1 n2 (chunks n0 n1 (chunks (n0 * n1) n2 flat)))
  else None.

(** [a.shape[i]]. *)
Definition shape_at (a : ndarray) (i : nat) : option nat :=
  nth_error (shape a) i.
End Ndarray.

Arguments Arr1 {A} xs.
Arguments Arr2 {A} ncols rows.
Arguments Arr3 {A} d1 d2 blocks.

(** ** The global numpy random state *)

(** [np.random] is modelled by an interface: seeding replaces the state by a
  function of the seed alone, and [permutation n] returns a rearrangement of
  [0 .. n-1] together with the advanced state. *)
Class RandomState : Type := {
  rng : Type;
  np_random_seed : Z -> rng;
  np_random_permutation : nat -> rng -> list nat * rng;
  np_random_permutation_spec :
  forall n g, Permutation (fst (np_random_permutation n g)) (seq 0 n)
}.

(** ** TensorFlowData *)

Section TensorFlowData.
Variable A : Type.
Context {RS : RandomState}.

Record TensorFlowData : Type := {
  predictors : ndarray A;
  num_predictors : nat;
  response : ndarray A;
  batch_index : nat;
  reached_end : bool;
  num_observations : nat;
  shuffle_each_epoch : bool
}.

(** [__init__]. *)
Definition init (predictors0 response0 : ndarray A) (shuffle_each_epoch0 : bool)
  : option TensorFlowData :=
  f <- shape_at predictors0 1 ;;
  n <- shape_at predictors0 0 ;;
  Some {| predictors := predictors0;
          num_predictors := f;
          response := response0;
          batch_index := 0;
          reached_end := false;
          num_observations := n;
          shuffle_each_epoch := shuffle_each_epoch0 |}.

(** The feed dictionary with its three keys; ["dropout:0"] is absent until
    the caller adds it. *)
Record feed_dict : Type := {
  predictors_0 : ndarray A;
  response_0 : ndarray A;
  dropout_0 : option R
}.

(** [shuffle]: the seed is installed only when [random_seed] is truthy. *)
Definition shuffle (random_seed : option Z) (self : TensorFlowData) (g : rng)
  : option (TensorFlowData * rng) :=
  g1 <- match random_seed with
        | None => Some g
        | Some s =>
            if (s =? 0)%Z then Some g
            else if ((0 <=? s) && (s <? 2 ^ 32))%Z then Some (np_random_seed s)
            else None
        end ;;
  let (new_order, g2) := np_random_permutation (num_observations self) g1 in
  p <- take_rows (predictors self) new_order ;;
  r <- take_rows (response self) new_order ;;
  Some ({| predictors := p;
           num_predictors := num_predictors self;
           response := r;
           batch_index := batch_index self;
           reached_end := reached_end self;
           num_observations := num_observations self;
           shuffle_each_epoch := shuffle_each_epoch self |}, g2).

(** [_update_batch_index]: the wrap test looks one batch ahead of the
    cursor it has just advanced. *)
Definition _update_batch_index (batch_size : nat) (self : TensorFlowData) (g : rng)
  : option (TensorFlowData * rng) :=
  let self1 := {| predictors := predictors self;
                  num_predictors := num_predictors self;
                  response := response self;
                  batch_index := batch_index self + batch_size;
                  reached_end := reached_end self;
                  num_observations := num_observations self;
                  shuffle_each_epoch := shuffle_each_epoch self |} in
  if num_observations self1 <? batch_index self1 + batch_size then
    let self2 := {| predictors := predictors self1;
                    num_predictors := num_predictors self1;
                    response := response self1;
                    batch_index := 0;
                    reached_end := true;
                    num_observations := num_observations self1;
                    shuffle_each_epoch := shuffle_each_epoch self1 |} in
    if shuffle_each_epoch self2 then shuffle None self2 g
    else Some (self2, g)
  else Some (self1, g).

(** [get_batch]: both arrays are sliced with two indices and reshaped before
    the cursor moves. *)
Definition get_batch (batch_size : nat) (self : TensorFlowData) (g : rng)
  : option (feed_dict * TensorFlowData * rng) :=
  let batch_start := batch_index self in
  let batch_end := batch_index self + batch_size in
  ps <- index_rows (predictors self) batch_start batch_end ;;
  p <- reshape3 ps 1 batch_size (num_predictors self) ;;
  rs <- index_rows (response self) batch_start batch_end ;;
  r <- reshape1 rs batch_size ;;
  let batch_data := {| predictors_0 := p; response_0 := r; dropout_0 := None |} in
  '(self', g') <- _update_batch_index batch_size self g ;;
  Some (batch_data, self', g').

(** [has_reached_end]: the answer and the feeder with the flag cleared. *)
Definition has_reached_end (self : TensorFlowData) : bool * TensorFlowData :=
  let result := reached_end self in
  (result, {| predictors := predictors self;
              num_predictors := num_predictors self;
              response := response self;
              batch_index := batch_index self;
              reached_end := false;
              num_observations := num_observations self;
              shuffle_each_epoch := shuffle_each_epoch self |}).

Definition reset_batch_index (self : TensorFlowData) : TensorFlowData :=
  {| predictors := predictors self;
     num_predictors := num_predictors self;
     response := response self;
     batch_index := 0;
     reached_end := false;
     num_observations := num_observations self;
     shuffle_each_epoch := shuffle_each_epoch self |}.
End TensorFlowData.

Arguments predictors {A} _.
Arguments num_predictors {A} _.
Arguments response {A} _.
Arguments batch_index {A} _.
Arguments reached_end {A} _.
Arguments num_observations {A} _.
Arguments shuffle_each_epoch {A} _.
Arguments predictors_0 {A} _.
Arguments response_0 {A} _.
Arguments dropout_0 {A} _.

(** ** Floating-point results *)

Open Scope R_scope.

(** A float is a real number or not-a-number. *)
Inductive float : Type :=
| Num (x : R)
| NaN.

Definition Rsum (l : list R) : R := fold_right Rplus 0 l.

Definition Rprod (l : list R) : R := fold_right Rmult 1 l.

(** [np.mean]: the mean of an empty collection is not-a-number. *)
Definition np_mean (l : list R) : float :=
  match l with
  | [] => NaN
  | _ :: _ => Num (Rsum l / INR (length l))
  end.

(** [math.sqrt]: raises on a negative argument, passes not-a-number on. *)
Definition math_sqrt (v : float) : option float :=
  match v with
  | NaN => Some NaN
  | Num x => if Rle_dec 0 x then Some (Num (sqrt x)) else None
  end.

(** ** TensorFlowModel *)

Section TensorFlowModel.
Context {RS : RandomState}.

(** What a subclass provides: [self.batch_size], and the evaluation
    [self.session.run([self.loss], feed_dict)] of its loss on a feed. *)
Variable batch_size : nat.
Variable session_run_loss : feed_dict R -> option R.

(** The [while] loop of [score]; [None] also stands for a loop that has not
    ended when the fuel is used up. *)
Fixpoint score_loop (fuel : nat) (scores : list (list R))
  (data : TensorFlowData R) (g : rng)
  : option (list (list R) * TensorFlowData R * rng) :=
  match fuel with
  | O => None
  | S fuel' =>
      let (ended, data1) := has_reached_end data in
      if ended then Some (scores, data1, g)
      else
        '(batch_data, data2, g2) <- get_batch batch_size data1 g ;;
        let input_dict := {| predictors_0 := predictors_0 batch_data;
                             response_0 := response_0 batch_data;
                             dropout_0 := Some 1 |} in
        loss <- session_run_loss input_dict ;;
        score_loop fuel' (scores ++ [[loss]]) data2 g2
  end.

Definition score (fuel : nat) (data : TensorFlowData R) (g : rng)
  : option (float * TensorFlowData R * rng) :=
  '(scores, data', g') <- score_loop fuel [] data g ;;
  result <- math_sqrt (np_mean (concat scores)) ;;
  Some (result, data', g').
End TensorFlowModel.

(** ** TensorFlowModel: the training loop *)

(** [self.fit_log]: the two lists grow together. *)
Record fit_log : Type := {
  batch_number : list nat;
  validation_score : list float
}.

Section Training.
Context {RS : RandomState}.

(** The state of the model variables is kept abstract; a subclass provides
    [self.batch_size], [self.dropout_rate], the update
    [self.session.run([self.optimizer, self.loss], feed_dict)] and the
    evaluation [self.session.run([self.loss], feed_dict)]. *)
Variable model : Type.
Variable batch_size : nat.
Variable dropout_rate : R.
Variable session_run_optimizer : model -> feed_dict R -> option model.
Variable session_run_loss : model -> feed_dict R -> option R.

(** [_train_steps]: one batch and one update per step; the loss that the run
    returns is dropped. *)
Fixpoint _train_steps (num_steps : nat) (m : model)
  (train_data : TensorFlowData R) (g : rng)
  : option (model * TensorFlowData R * rng) :=
  match num_steps with
  | O => Some (m, train_data, g)
  | S num_steps' =>
      '(batch_data, train_data1, g1) <- get_batch batch_size train_data g ;;
      let input_dict := {| predictors_0 := predictors_0 batch_data;
                           response_0 := response_0 batch_data;
                           dropout_0 := Some dropout_rate |} in
      m1 <- session_run_optimizer m input_dict ;;
      _train_steps num_steps' m1 train_data1 g1
  end.

(** The [while] loop of [train], entered with [current_step]; printing and
    the wall-clock [fit_time] are left out.  [score_fuel] bounds every call
    of [score], [fuel] the loop itself. *)
Fixpoint train_loop (fuel score_fuel training_steps print_every current_step : nat)
  (m : model) (log : fit_log)
  (train_data validation_data : TensorFlowData R) (g : rng)
  : option (model * fit_log * TensorFlowData R * TensorFlowData R * rng) :=
  match fuel with
  | O => None
  | S fuel' =>
      if (current_step <? training_steps)%nat then
        '(m1, train_data1, g1) <- _train_steps print_every m train_data g ;;
        let current_step1 := (current_step + print_every)%nat in
        '(current_score, validation_data1, g2) <-
          score batch_size (session_run_loss m1) score_fuel validation_data g1 ;;
        let log1 := {| batch_number := batch_number log ++ [current_step1];
                       validation_score :=
                         validation_score log ++ [current_score] |} in
        train_loop fuel' score_fuel training_steps print_every current_step1
                   m1 log1 train_data1 validation_data1 g2
      else Some (m, log, train_data, validation_data, g)
  end.

Definition train (fuel score_fuel : nat) (m : model) (log : fit_log)
  (train_data validation_data : TensorFlowData R)
  (training_steps print_every : nat) (g : rng)
  : option (model * fit_log * TensorFlowData R * TensorFlowData R * rng) :=
  train_loop fuel score_fuel training_steps print_every 0 m log
             train_data validation_data g.
End Training.

(** ** Tensors *)

(** A rank-3 tensor is a list of planes, each a list of rows. *)
Definition Tensor3 : Type := list (list (list R)).

Definition Tensor4 : Type := list (list (list (list R))).

Definition map2 {X Y Z : Type} (f : X -> Y -> Z) (l1 : list X) (l2 : list Y) : list Z :=
  map (fun xy => f (fst xy) (snd xy)) (combine l1 l2).

Definition map3 {X Y : Type} (f : X -> Y) (t : list (list (list X)))
  : list (list (list Y)) :=
  map (map (map f)) t.

(** The list [f 0; ...; f (n - 1)]. *)
Definition tabulate {X : Type} (n : nat) (f : nat -> X) : list X :=
  map f (seq 0 n).

(** The tensor of the given shape whose entry at [i, j, k] is [f i j k]. *)
Definition tabulate3 (n m p : nat) (f : nat -> nat -> nat -> R) : Tensor3 :=
  tabulate n (fun i => tabulate m (fun j => tabulate p (fun k => f i j k))).

(** [t[i, j, k]]. *)
Definition get3 (t : Tensor3) (i j k : nat) : R :=
  nth k (nth j (nth i t []) []) 0.

Definition has_shape3 (n m p : nat) (t : Tensor3) : bool :=
  (length t =? n)%nat
  && forallb (fun plane =>
                (length plane =? m)%nat
                && forallb (fun row => (length row =? p)%nat) plane) t.

(** [tf.gather(params, indices)] along the first axis. *)
Definition tf_gather {X : Type} (params : list X) (indices : list nat)
  : option (list X) :=
  mapM (nth_error params) indices.

Definition dot (u v : list R) : R := Rsum (map2 Rmult u v).

(** [tf.matmul] of a stack of matrices: plane by plane, row times column.
    The number of columns is read off the first row of the right operand,
    which is there whenever [num_features >= 1]. *)
Definition tf_matmul (a b : Tensor3) : Tensor3 :=
  map2 (fun pa pb =>
          map (fun row =>
                 map (fun k => dot row (map (fun brow => nth k brow 0) pb))
                     (seq 0 (length (hd [] pb))))
              pa)
       a b.

(** [tf.tile(t, [1, reps, 1])]. *)
Definition tf_tile1 (t : Tensor3) (reps : nat) : Tensor3 :=
  map (fun plane => concat (repeat plane reps)) t.

(** An element-wise operation; a second operand with a single row per plane
    is broadcast along the rows of the first. *)
Definition broadcast (op : R -> R -> R) (a b : Tensor3) : Tensor3 :=
  map2 (fun pa pb =>
          match pb with
          | [rb] => map (fun ra => map2 op ra rb) pa
          | _ => map2 (map2 op) pa pb
          end)
       a b.

(** [tf.sigmoid] as a function of a real number; [Binary32] has what
    binary32 adds to it. *)
Definition sigmoid (x : R) : R := 1 / (1 + exp (- x)).

(** [tf.stack(ts, axis=3)]: the entries of the tensors side by side along a
    new last axis.  The first tensor gives the shape, so an empty list
    raises. *)
Fixpoint stack_from (t0 : Tensor3) (ts : list Tensor3) : Tensor4 :=
  match ts with
  | [] => map3 (fun x => [x]) t0
  | t1 :: ts' => map2 (map2 (map2 cons)) t0 (stack_from t1 ts')
  end.

Definition tf_stack3 (ts : list Tensor3) : option Tensor4 :=
  match ts with
  | [] => None
  | t0 :: ts' => Some (stack_from t0 ts')
  end.

(** [tf.reduce_prod(t, axis=3)]. *)
Definition tf_reduce_prod3 (t : Tensor4) : Tensor3 := map3 Rprod t.

(** [tf.reduce_sum(t, axis=[0, 2])]. *)
Definition tf_reduce_sum02 (t : Tensor3) : list R :=
  match map (map Rsum) t with
  | [] => []
  | r :: rs => fold_left (map2 Rplus) rs r
  end.

(** ** BrainTree *)

Section BrainTree.

(** The constructor arguments. *)
Variables num_features num_trees max_depth batch_size : nat.

(** The current values of the model variables: the random draws of
    [random_variable], as later changed by the optimizer.  The first argument
    of the split parameters is the tree level. *)
Variables split_weight_val split_bias_val split_strength_val
  : nat -> nat -> nat -> nat -> R.
Variables terminal_weight_val terminal_bias_val : nat -> nat -> nat -> R.

(** [random_variable(shape)] holding the given values. *)
Definition random_variable (n m p : nat) (val : nat -> nat -> nat -> R) : Tensor3 :=
  tabulate3 n m p val.

(** The model parameters of [_build_graph]. *)
Definition split_weight : list Tensor3 :=
  map (fun i => random_variable (2 ^ i) num_features num_trees (split_weight_val i))
      (seq 0 max_depth).

Definition split_bias : list Tensor3 :=
  map (fun i => random_variable (2 ^ i) 1 num_trees (split_bias_val i))
      (seq 0 max_depth).

Definition split_strength : list Tensor3 :=
  map (fun i => random_variable (2 ^ i) 1 num_trees (split_strength_val i))
      (seq 0 max_depth).

Definition terminal_weight : Tensor3 :=
  random_variable (2 ^ max_depth) num_features num_trees terminal_weight_val.

Definition terminal_bias : Tensor3 :=
  random_variable (2 ^ max_depth) 1 num_trees terminal_bias_val.

(** [predictors_in] is the value fed to the ["predictors:0"] placeholder. *)
Definition _build_split_prob (predictors_in : Tensor3) (depth : nat)
  : option Tensor3 :=
  x <- tf_gather predictors_in (repeat 0%nat (2 ^ depth)) ;;
  w <- nth_error split_weight depth ;;
  b <- nth_error split_bias depth ;;
  s <- nth_error split_strength depth ;;
  let basic_logit :=
    broadcast Rplus (tf_matmul x w) (tf_tile1 b batch_size) in
  let prob := map3 sigmoid (broadcast Rmult basic_logit (map3 exp s)) in
  let prob_with_complement := prob ++ map3 (fun p => 1 - p) prob in
  tf_gather prob_with_complement
            (concat (repeat (seq 0 (2 ^ (depth + 1)))
                            (2 ^ (max_depth - depth - 1)))).

(** The first two statements of [_build_predictions]: the probability of
    reaching each leaf. *)
Definition terminal_prob (predictors_in : Tensor3) : option Tensor3 :=
  levels <- mapM (_build_split_prob predictors_in) (seq 0 max_depth) ;;
  split_prob <- tf_stack3 levels ;;
  Some (tf_reduce_prod3 split_prob).

Definition _build_predictions (predictors_in : Tensor3) : option (list R) :=
  terminal_prob <- terminal_prob predictors_in ;;
  x <- tf_gather predictors_in (repeat 0%nat (2 ^ max_depth)) ;;
  let terminal_pred :=
    broadcast Rplus (tf_matmul x terminal_weight) terminal_bias in
  Some (tf_reduce_sum02 (broadcast Rmult terminal_prob terminal_pred)).

(** [tf.losses.mean_squared_error(pred, response)]. *)
Definition mean_squared_error (pred resp : list R) : R :=
  Rsum (map2 (fun p r => (p - r) * (p - r)) pred resp) / INR (length pred).

(** [self.session.run([self.loss], feed_dict)]: the fed arrays must have the
    shapes of the placeholders of [_build_inputs]. *)
Definition session_run_loss (input_dict : feed_dict R) : option R :=
  match predictors_0 input_dict, response_0 input_dict with
  | Arr3 d1 d2 blocks, Arr1 resp =>
      if (d1 =? batch_size)%nat && (d2 =? num_features)%nat
         && has_shape3 1 batch_size num_features blocks
         && (length resp =? batch_size)%nat
      then pred <- _build_predictions blocks ;;
           Some (mean_squared_error pred resp)
      else None
  | _, _ => None
  end.
End BrainTree.

(** ** BrainTree in binary32 *)

(** The graph as [tf.float32] evaluates it: every entry is an IEEE binary32
    number, sums, differences and products round to nearest even, and
    [tf.exp] and [tf.sigmoid] are the library's, known here by two facts
    only. *)
Module Binary32.

Definition float32 : Type := SpecFloat.spec_float.

Definition add : float32 -> float32 -> float32 := SpecFloat.SFadd 24 128.

Definition sub : float32 -> float32 -> float32 := SpecFloat.SFsub 24 128.

Definition mul : float32 -> float32 -> float32 := SpecFloat.SFmul 24 128.

Definition zero : float32 := SpecFloat.S754_zero false.

Definition one : float32 := SpecFloat.S754_finite false 8388608 (-23).

(** 89.0, above the logarithm of the largest binary32 number. *)
Definition eighty_nine : float32 := SpecFloat.S754_finite false 11665408 (-17).


Definition nan : float32 := SpecFloat.S754_nan.

Definition infinity : float32 := SpecFloat.S754_infinity false.

(** [tf.exp] and [tf.sigmoid] on binary32: [exp] overflows to infinity from
    89 on, and [sigmoid] hands a not-a-number on. *)
Class Math : Type := {
  exp : float32 -> float32;
  sigmoid : float32 -> float32;
  exp_overflow :
    forall x, SpecFloat.SFleb eighty_nine x = true -> exp x = infinity;
  sigmoid_nan : sigmoid nan = nan
}.

Definition Tensor3 : Type := list (list (list float32)).

Definition Tensor4 : Type := list (list (list (list float32))).

Definition tabulate3 (n m p : nat) (f : nat -> nat -> nat -> float32) : Tensor3 :=
  tabulate n (fun i => tabulate m (fun j => tabulate p (fun k => f i j k))).

(** Sums and products run left to right from the neutral element. *)
Definition sum (l : list float32) : float32 := fold_left add l zero.

Definition prod (l : list float32) : float32 := fold_left mul l one.

Definition dot (u v : list float32) : float32 := sum (map2 mul u v).

Definition tf_matmul (a b : Tensor3) : Tensor3 :=
  map2 (fun pa pb =>
          map (fun row =>
                 map (fun k => dot row (map (fun brow => nth k brow zero) pb))
                     (seq 0 (length (hd [] pb))))
              pa)
       a b.

Definition tf_tile1 (t : Tensor3) (reps : nat) : Tensor3 :=
  map (fun plane => concat (repeat plane reps)) t.

Definition broadcast (op : float32 -> float32 -> float32) (a b : Tensor3)
  : Tensor3 :=
  map2 (fun pa pb =>
          match pb with
          | [rb] => map (fun ra => map2 op ra rb) pa
          | _ => map2 (map2 op) pa pb
          end)
       a b.

Fixpoint stack_from (t0 : Tensor3) (ts : list Tensor3) : Tensor4 :=
  match ts with
  | [] => map3 (fun x => [x]) t0
  | t1 :: ts' => map2 (map2 (map2 cons)) t0 (stack_from t1 ts')
  end.

Definition tf_stack3 (ts : list Tensor3) : option Tensor4 :=
  match ts with
  | [] => None
  | t0 :: ts' => Some (stack_from t0 ts')
  end.

Definition tf_reduce_prod3 (t : Tensor4) : Tensor3 := map3 prod t.

Section Graph.
Context {M : Math}.
Variables num_features num_trees max_depth batch_size : nat.
Variables split_weight_val split_bias_val split_strength_val
  : nat -> nat -> nat -> nat -> float32.

Definition random_variable (n m p : nat) (val : nat -> nat -> nat -> float32)
  : Tensor3 :=
  tabulate3 n m p val.

Definition split_weight : list Tensor3 :=
  map (fun i => random_variable (2 ^ i) num_features num_trees (split_weight_val i))
      (seq 0 max_depth).

Definition split_bias : list Tensor3 :=
  map (fun i => random_variable (2 ^ i) 1 num_trees (split_bias_val i))
      (seq 0 max_depth).

Definition split_strength : list Tensor3 :=
  map (fun i => random_variable (2 ^ i) 1 num_trees (split_strength_val i))
      (seq 0 max_depth).

Definition _build_split_prob (predictors_in : Tensor3) (depth : nat)
  : option Tensor3 :=
  x <- tf_gather predictors_in (repeat 0%nat (2 ^ depth)) ;;
  w <- nth_error split_weight depth ;;
  b <- nth_error split_bias depth ;;
  s <- nth_error split_strength depth ;;
  let basic_logit :=
    broadcast add (tf_matmul x w) (tf_tile1 b batch_size) in
  let prob := map3 sigmoid (broadcast mul basic_logit (map3 exp s)) in
  let prob_with_complement := prob ++ map3 (fun p => sub one p) prob in
  tf_gather prob_with_complement
            (concat (repeat (seq 0 (2 ^ (depth + 1)))
                            (2 ^ (max_depth - depth - 1)))).

(** The first two statements of [_build_predictions]. *)
Definition terminal_prob (predictors_in : Tensor3) : option Tensor3 :=
  levels <- mapM (_build_split_prob predictors_in) (seq 0 max_depth) ;;
  split_prob <- tf_stack3 levels ;;
  Some (tf_reduce_prod3 split_prob).

End Graph.

Lemma sample_exp_overflow (x : float32) :
  SpecFloat.SFleb eighty_nine x = true ->
  (if SpecFloat.SFleb eighty_nine x then infinity else one) = infinity.
Proof. intros H. rewrite H. reflexivity. Qed.

(** A stand-in for the library functions that meets the two facts. *)
Definition sample_math : Math :=
  {| exp := fun x => if SpecFloat.SFleb eighty_nine x then infinity else one;
     sigmoid := fun x => match x with
                         | SpecFloat.S754_nan => nan
                         | _ => SpecFloat.S754_finite false 8388608 (-24)
                         end;
     exp_overflow := sample_exp_overflow;
     sigmoid_nan := eq_refl |}.
End Binary32.

(** ** Derived notions used in the statements *)

Section FeederNotions.
Variable A : Type.
Context {RS : RandomState}.

(** A feeder over a predictor matrix [N, F] and a response column [N, 1],
    as [__init__] leaves it and every method keeps it. *)
Definition feeder_ok (self : TensorFlowData A) : Prop :=
  match predictors self, response self with
  | Arr2 f prows, Arr2 c rrows =>
      f = num_predictors self /\ c = 1%nat
      /\ length prows = num_observations self
      /\ length rrows = num_observations self
      /\ Forall (fun r => length r = f) prows
      /\ Forall (fun r => length r = 1%nat) rrows
  | _, _ => False
  end.

(** The rows of a rank-2 array. *)
Definition rows_of (a : ndarray A) : list (list A) :=
  match a with
  | Arr2 _ rows => rows
  | _ => []
  end.

(** Row [i] of the predictors next to row [i] of the response. *)
Definition paired_rows (self : TensorFlowData A) : list (list A * list A) :=
  combine (rows_of (predictors self)) (rows_of (response self)).

(** The predictor rows and the responses a batch holds. *)
Definition batch_rows (b : feed_dict A) : list (list A) :=
  match predictors_0 b with
  | Arr3 _ _ blocks => concat blocks
  | _ => []
  end.

Definition batch_response (b : feed_dict A) : list A := ravel (response_0 b).

(** The feeder with both arrays rearranged by [order]. *)
Definition reordered (order : list nat) (self : TensorFlowData A)
  : TensorFlowData A :=
  {| predictors := Arr2 (num_predictors self)
                        (map (fun i => nth i (rows_of (predictors self)) []) order);
     num_predictors := num_predictors self;
     response := Arr2 1 (map (fun i => nth i (rows_of (response self)) []) order);
     batch_index := batch_index self;
     reached_end := reached_end self;
     num_observations := num_observations self;
     shuffle_each_epoch := shuffle_each_epoch self |}.

(** A seed that [np.random.seed] accepts. *)
Definition seed_in_range (random_seed : option Z) : Prop :=
  match random_seed with
  | None => True
  | Some s => (0 <= s < 2 ^ 32)%Z
  end.

(** The state [np.random.permutation] draws from inside [shuffle]. *)
Definition state_after_seed (random_seed : option Z) (g : rng) : rng :=
  match random_seed with
  | None => g
  | Some s => if (s =? 0)%Z then g else np_random_seed s
  end.

(** The feeder with the cursor moved to [i] and the flag set to [e]. *)
Definition moved (i : nat) (e : bool) (self : TensorFlowData A)
  : TensorFlowData A :=
  {| predictors := predictors self;
     num_predictors := num_predictors self;
     response := response self;
     batch_index := i;
     reached_end := e;
     num_observations := num_observations self;
     shuffle_each_epoch := shuffle_each_epoch self |}.

(** The batch of [batch_size] rows that starts at the cursor. *)
Definition batch_at (batch_size : nat) (self : TensorFlowData A) : feed_dict A :=
  let i := batch_index self in
  {| predictors_0 :=
       Arr3 batch_size (num_predictors self)
            [slice i (i + batch_size) (rows_of (predictors self))];
     response_0 :=
       Arr1 (concat (slice i (i + batch_size) (rows_of (response self))));
     dropout_0 := None |}.

(** One epoch as a caller counts it: batches are pulled until
    [has_reached_end] answers true. *)
Fixpoint run_epoch (fuel batch_size : nat) (self : TensorFlowData A) (g : rng)
  : option (list (feed_dict A) * TensorFlowData A * rng) :=
  match fuel with
  | O => None
  | S fuel' =>
      '(b, self1, g1) <- get_batch batch_size self g ;;
      let (ended, self2) := has_reached_end self1 in
      if ended then Some ([b], self2, g1)
      else
        '(bs, self3, g3) <- run_epoch fuel' batch_size self2 g1 ;;
        Some (b :: bs, self3, g3)
  end.
End FeederNotions.

(** A small random state: the permutation is a rotation by the state. *)
Definition rotate {X : Type} (k : nat) (l : list X) : list X :=
  skipn k l ++ firstn k l.

Lemma rotate_Permutation {X : Type} (k : nat) (l : list X) :
  Permutation (rotate k l) l.
Proof.
  unfold rotate.
  rewrite Permutation_app_comm, firstn_skipn.
  apply Permutation_refl.
Qed.

Definition rotating_random : RandomState :=
  {| rng := nat;
     np_random_seed := Z.to_nat;
     np_random_permutation := fun n g => (rotate g (seq 0 n), S g);
     np_random_permutation_spec := fun n g => rotate_Permutation g (seq 0 n) |}.

(** ** The forest in closed form *)

Section ClosedForm.
Variables num_features num_trees max_depth : nat.
Variables split_weight_val split_bias_val split_strength_val
  : nat -> nat -> nat -> nat -> R.
Variables terminal_weight_val terminal_bias_val : nat -> nat -> nat -> R.

(** [x item f] is feature [f] of batch item [item]. *)
Variable x : nat -> nat -> R.

(** The routing probability of the split at [node] of level [d]. *)
Definition split_probability (d node item tree : nat) : R :=
  sigmoid ((Rsum (map (fun f => x item f * split_weight_val d node f tree)
                      (seq 0 num_features))
            + split_bias_val d node 0%nat tree)
           * exp (split_strength_val d node 0%nat tree)).

(** The probability of the branch that the path to [leaf] takes at level
    [d]: the split probability of its node, or the complement. *)
Definition branch_probability (d leaf item tree : nat) : R :=
  let r := (leaf mod 2 ^ (d + 1))%nat in
  if (r <? 2 ^ d)%nat then split_probability d r item tree
  else 1 - split_probability d (r - 2 ^ d) item tree.

(** The product of the branch probabilities along the path to [leaf]. *)
Definition path_probability (leaf item tree : nat) : R :=
  Rprod (map (fun d => branch_probability d leaf item tree) (seq 0 max_depth)).

(** The linear regression at [leaf]. *)
Definition leaf_prediction (leaf item tree : nat) : R :=
  Rsum (map (fun f => x item f * terminal_weight_val leaf f tree)
            (seq 0 num_features))
  + terminal_bias_val leaf 0%nat tree.

(** The sum over all leaves and all trees. *)
Definition mixture_prediction (item : nat) : R :=
  Rsum (map (fun leaf =>
               Rsum (map (fun tree => path_probability leaf item tree
                                      * leaf_prediction leaf item tree)
                         (seq 0 num_trees)))
            (seq 0 (2 ^ max_depth))).
End ClosedForm.

(** ** Sample data *)

(** Five tagged rows with a response column. *)
Definition sample_feeder (flag : bool) : TensorFlowData nat :=
  {| predictors := Arr2 1 [[10]; [11]; [12]; [13]; [14]]%nat;
     num_predictors := 1;
     response := Arr2 1 [[20]; [21]; [22]; [23]; [24]]%nat;
     batch_index := 0;
     reached_end := flag;
     num_observations := 5;
     shuffle_each_epoch := true |}.

(** The same rows with a one-dimensional response of shape [5]. *)
Definition sample_feeder_flat : TensorFlowData nat :=
  {| predictors := Arr2 1 [[10]; [11]; [12]; [13]; [14]]%nat;
     num_predictors := 1;
     response := Arr1 [20; 21; 22; 23; 24]%nat;
     batch_index := 0;
     reached_end := false;
     num_observations := 5;
     shuffle_each_epoch := true |}.

(** Six observations of one real feature, with a response column. *)
Definition sample_data (flag : bool) : TensorFlowData R :=
  {| predictors := Arr2 1 [[1]; [2]; [3]; [4]; [5]; [6]];
     num_predictors := 1;
     response := Arr2 1 [[2]; [4]; [6]; [8]; [10]; [12]];
     batch_index := 0;
     reached_end := flag;
     num_observations := 6;
     shuffle_each_epoch := false |}.

(** The feed with ["dropout:0"] set. *)
Definition with_dropout (rate : R) (b : feed_dict R) : feed_dict R :=
  {| predictors_0 := predictors_0 b;
     response_0 := response_0 b;
     dropout_0 := Some rate |}.

(** A feed that fits the placeholders of [_build_inputs]: predictors of
    shape [1, batch_size, num_features] and a response of shape
    [batch_size]. *)
Definition feed_fits (batch_size num_features : nat) (fd : feed_dict R) : bool :=
  match predictors_0 fd, response_0 fd with
  | Arr3 d1 d2 blocks, Arr1 resp =>
      (d1 =? batch_size)%nat && (d2 =? num_features)%nat
      && has_shape3 1 batch_size num_features blocks
      && (length resp =? batch_size)%nat
  | _, _ => false
  end.

(** The batches of the epoch that starts at the cursor. *)
Definition epoch_batches (b : nat) (data : TensorFlowData R)
  : list (feed_dict R) :=
  map (fun j => batch_at b (moved (batch_index data + j * b) false data))
      (seq 0 ((num_observations data - batch_index data) / b)).

(** A left fold in the error monad. *)
Fixpoint foldM {S X : Type} (f : S -> X -> option S) (l : list X) (s : S)
  : option S :=
  match l with
  | [] => Some s
  | x :: t => s' <- f s x ;; foldM f t s'
  end.

(** * Lemmas on lists *)

Unset Implicit Arguments.

(** Runs the binds whose first computation is already a value. *)
Ltac run_bind := cbv beta iota delta [bind].

Tactic Notation "run_bind" "in" hyp(H) := cbv beta iota delta [bind] in H.

Lemma bind_Some {X Y : Type} (m : option X) (k : X -> option Y) (y : Y) :
  bind m k = Some y -> exists x, m = Some x /\ k x = Some y.
Proof.
  destruct m as [x|]; simpl; intros H; [eauto | discriminate].
Qed.

Lemma mapM_nth_error {X : Type} (d : X) (l : list X) (idx : list nat) :
  Forall (fun i => (i < length l)%nat) idx ->
  mapM (nth_error l) idx = Some (map (fun i => nth i l d) idx).
Proof.
  induction 1 as [|i idx Hi _ IH]; simpl; [reflexivity|].
  rewrite (nth_error_nth' l d Hi); simpl.
  rewrite IH; reflexivity.
Qed.

Lemma mapM_nth_error_None {X : Type} (l : list X) (idx : list nat) :
  Exists (fun i => (length l <= i)%nat) idx ->
  mapM (nth_error l) idx = None.
Proof.
  induction 1 as [i idx Hi | i idx _ IH]; simpl.
  - apply nth_error_None in Hi. rewrite Hi. reflexivity.
  - destruct (nth_error l i); simpl; [rewrite IH|]; reflexivity.
Qed.

Lemma map_nth_seq {X : Type} (d : X) (l : list X) :
  map (fun i => nth i l d) (seq 0 (length l)) = l.
Proof.
  induction l as [|x l IH]; simpl; [reflexivity|].
  f_equal. rewrite <- seq_shift, map_map. exact IH.
Qed.

Lemma Permutation_seq_bound (n : nat) (order : list nat) :
  Permutation order (seq 0 n) -> Forall (fun i => (i < n)%nat) order.
Proof.
  intros HP. apply Forall_forall. intros i Hi.
  apply (Permutation_in _ HP) in Hi. apply in_seq in Hi. lia.
Qed.

Lemma Permutation_take {X : Type} (d : X) (l : list X) (order : list nat) :
  Permutation order (seq 0 (length l)) ->
  Permutation (map (fun i => nth i l d) order) l.
Proof.
  intros HP.
  eapply Permutation_trans.
  - apply Permutation_map. exact HP.
  - rewrite map_nth_seq. apply Permutation_refl.
Qed.

Lemma combine_take {X Y : Type} (dx : X) (dy : Y) (l1 : list X) (l2 : list Y)
  (order : list nat) :
  length l1 = length l2 ->
  combine (map (fun i => nth i l1 dx) order) (map (fun i => nth i l2 dy) order)
  = map (fun i => nth i (combine l1 l2) (dx, dy)) order.
Proof.
  intros Hlen. induction order as [|i order IH]; simpl; [reflexivity|].
  rewrite IH. f_equal. symmetry. apply combine_nth. exact Hlen.
Qed.

Lemma In_firstn {X : Type} (n : nat) (l : list X) (x : X) :
  In x (firstn n l) -> In x l.
Proof.
  intros H. rewrite <- (firstn_skipn n l). apply in_or_app. left. exact H.
Qed.

Lemma In_skipn {X : Type} (n : nat) (l : list X) (x : X) :
  In x (skipn n l) -> In x l.
Proof.
  intros H. rewrite <- (firstn_skipn n l). apply in_or_app. right. exact H.
Qed.

Lemma length_slice {X : Type} (a b : nat) (l : list X) :
  (b <= length l)%nat -> length (slice a b l) = (b - a)%nat.
Proof.
  intros H. unfold slice. rewrite length_firstn, length_skipn. lia.
Qed.

Lemma Forall_slice {X : Type} (P : X -> Prop) (a b : nat) (l : list X) :
  Forall P l -> Forall P (slice a b l).
Proof.
  intros H. unfold slice. apply Forall_forall. intros x Hx.
  apply In_firstn, In_skipn in Hx.
  revert x Hx. apply Forall_forall. exact H.
Qed.

Lemma length_concat_uniform {X : Type} (k : nat) (rows : list (list X)) :
  Forall (fun r => length r = k) rows ->
  length (concat rows) = (length rows * k)%nat.
Proof.
  induction 1 as [|r rows Hr _ IH]; simpl; [reflexivity|].
  rewrite length_app, IH, Hr. reflexivity.
Qed.

Lemma slice_app_skip {X : Type} (r l : list X) (a b : nat) :
  slice (length r + a) (length r + b) (r ++ l) = slice a b l.
Proof.
  unfold slice.
  rewrite skipn_app, skipn_all2 by lia. simpl.
  replace (length r + a - length r)%nat with a by lia.
  f_equal. lia.
Qed.

Lemma slice_all {X : Type} (l : list X) (n : nat) :
  n = length l -> slice 0 n l = l.
Proof.
  intros ->. unfold slice. simpl. rewrite Nat.sub_0_r. apply firstn_all.
Qed.

Lemma slice_prefix {X : Type} (r l : list X) :
  slice 0 (length r) (r ++ l) = r.
Proof.
  unfold slice. simpl. rewrite Nat.sub_0_r, firstn_app, Nat.sub_diag, firstn_all.
  simpl. apply app_nil_r.
Qed.

Lemma chunks_concat {X : Type} (k : nat) (rows : list (list X)) :
  Forall (fun r => length r = k) rows ->
  chunks (length rows) k (concat rows) = rows.
Proof.
  induction 1 as [|r rows Hr Hrows IH]; [reflexivity|].
  unfold chunks in *. simpl length. simpl seq. simpl map at 1. simpl concat.
  f_equal.
  - rewrite <- Hr. simpl. apply slice_prefix.
  - rewrite <- seq_shift, map_map. rewrite <- IH at 2.
    apply map_ext. intros i.
    replace (S i * k)%nat with (length r + i * k)%nat by (rewrite Hr; lia).
    rewrite <- Nat.add_assoc. apply slice_app_skip.
Qed.

Lemma chunks_one {X : Type} (n : nat) (l : list X) :
  n = length l -> chunks 1 n l = [l].
Proof.
  intros H. unfold chunks. simpl. rewrite (slice_all l n H). reflexivity.
Qed.

Lemma firstn_plus {X : Type} (n m : nat) (l : list X) :
  firstn (n + m) l = firstn n l ++ firstn m (skipn n l).
Proof.
  revert l. induction n as [|n IH]; intros l; [reflexivity|].
  destruct l as [|x l]; simpl.
  - rewrite firstn_nil. reflexivity.
  - rewrite IH. reflexivity.
Qed.

Lemma slice_cons_next {X : Type} (a b k : nat) (l : list X) :
  (a <= b)%nat ->
  slice a b l ++ slice b (b + k) l = slice a (b + k) l.
Proof.
  intros Hab. unfold slice.
  replace (b + k - a)%nat with ((b - a) + (b + k - b))%nat by lia.
  rewrite firstn_plus. f_equal.
  rewrite skipn_skipn. replace (b - a + a)%nat with b by lia. reflexivity.
Qed.

(** * The batch feeder *)

Section FeederFacts.
Variable A : Type.
Context {RS : RandomState}.
Implicit Types self : TensorFlowData A.

Lemma take_rows_Arr2 (c : nat) (rows : list (list A)) (order : list nat) :
  Permutation order (seq 0 (length rows)) ->
  take_rows (Arr2 c rows) order
  = Some (Arr2 c (map (fun i => nth i rows []) order)).
Proof.
  intros HP. simpl.
  rewrite (mapM_nth_error [] rows order (Permutation_seq_bound _ _ HP)).
  reflexivity.
Qed.

Lemma feeder_ok_reordered self (order : list nat) :
  feeder_ok self ->
  Permutation order (seq 0 (num_observations self)) ->
  feeder_ok (reordered order self).
Proof.
  unfold feeder_ok, reordered. simpl.
  destruct (predictors self) as [|f prows|]; try tauto.
  destruct (response self) as [|c rrows|]; try tauto.
  simpl. intros (Hf & Hc & Hp & Hr & HFp & HFr) HP.
  pose proof (Permutation_length HP) as Hlen. rewrite length_seq in Hlen.
  repeat split; auto; rewrite ?length_map; auto.
  - subst f. apply Forall_map. apply Forall_forall. intros i Hi.
    apply (Permutation_in _ HP) in Hi. apply in_seq in Hi.
    rewrite Forall_forall in HFp. apply HFp, nth_In. lia.
  - apply Forall_map. apply Forall_forall. intros i Hi.
    apply (Permutation_in _ HP) in Hi. apply in_seq in Hi.
    rewrite Forall_forall in HFr. apply HFr, nth_In. lia.
Qed.

Lemma paired_rows_reordered self (order : list nat) :
  feeder_ok self ->
  Permutation order (seq 0 (num_observations self)) ->
  Permutation (paired_rows (reordered order self)) (paired_rows self).
Proof.
  unfold feeder_ok, paired_rows, reordered. simpl.
  destruct (predictors self) as [|f prows|]; try tauto.
  destruct (response self) as [|c rrows|]; try tauto.
  simpl. intros (Hf & Hc & Hp & Hr & HFp & HFr) HP.
  rewrite combine_take by congruence.
  apply Permutation_take.
  rewrite length_combine, Hp, Hr, Nat.min_id. exact HP.
Qed.

(** [shuffle] succeeds on a feeder and rearranges both arrays by the
    permutation it drew. *)
Lemma shuffle_reordered (random_seed : option Z) self (g : rng) :
  feeder_ok self ->
  seed_in_range random_seed ->
  let draw := np_random_permutation (num_observations self)
                                    (state_after_seed random_seed g) in
  shuffle random_seed self g = Some (reordered (fst draw) self, snd draw).
Proof.
  intros Hok Hseed draw. unfold shuffle.
  assert (Hg : match random_seed with
               | None => Some g
               | Some s =>
                   if (s =? 0)%Z then Some g
                   else if ((0 <=? s) && (s <? 2 ^ 32))%Z
                        then Some (np_random_seed s) else None
               end = Some (state_after_seed random_seed g)).
  { destruct random_seed as [s|]; simpl in *; [|reflexivity].
    destruct (s =? 0)%Z; [reflexivity|].
    destruct Hseed as [H0 H1].
    apply Z.leb_le in H0. apply Z.ltb_lt in H1. rewrite H0, H1. reflexivity. }
  rewrite Hg. simpl bind. fold draw.
  pose proof (np_random_permutation_spec (num_observations self)
                (state_after_seed random_seed g)) as HP.
  fold draw in HP. destruct draw as [new_order g2]. simpl in HP |- *.
  unfold feeder_ok in Hok. unfold reordered.
  destruct (predictors self) as [|f prows|]; try tauto.
  destruct (response self) as [|c rrows|]; try tauto.
  destruct Hok as (Hf & Hc & Hp & Hr & HFp & HFr).
  rewrite take_rows_Arr2 by (rewrite Hp; exact HP).
  rewrite take_rows_Arr2 by (rewrite Hr; exact HP).
  simpl. subst f c. reflexivity.
Qed.

Lemma feeder_ok_moved self (i : nat) (e : bool) :
  feeder_ok self -> feeder_ok (moved i e self).
Proof. unfold feeder_ok, moved. simpl. tauto. Qed.

Lemma update_unfold (batch_size : nat) self (g : rng) :
  _update_batch_index batch_size self g
  = if (num_observations self <? batch_index self + batch_size + batch_size)%nat
    then if shuffle_each_epoch self
         then shuffle None (moved 0 true self) g
         else Some (moved 0 true self, g)
    else Some (moved (batch_index self + batch_size) (reached_end self) self, g).
Proof. reflexivity. Qed.

(** The cursor update when the next batch still fits. *)
Lemma update_advance (batch_size : nat) self (g : rng) :
  (batch_index self + batch_size + batch_size <= num_observations self)%nat ->
  _update_batch_index batch_size self g
  = Some (moved (batch_index self + batch_size) (reached_end self) self, g).
Proof.
  intros H. rewrite update_unfold.
  apply Nat.ltb_ge in H. rewrite H. reflexivity.
Qed.

(** The cursor update at the end of an epoch. *)
Lemma update_wrap (batch_size : nat) self (g : rng) :
  feeder_ok self ->
  (num_observations self < batch_index self + batch_size + batch_size)%nat ->
  _update_batch_index batch_size self g
  = if shuffle_each_epoch self
    then let draw := np_random_permutation (num_observations self) g in
         Some (reordered (fst draw) (moved 0 true self), snd draw)
    else Some (moved 0 true self, g).
Proof.
  intros Hok H. rewrite update_unfold.
  apply Nat.ltb_lt in H. rewrite H.
  destruct (shuffle_each_epoch self); [|reflexivity].
  apply (shuffle_reordered None (moved 0 true self) g).
  - apply feeder_ok_moved, Hok.
  - exact I.
Qed.

(** The cursor update never fails on a feeder, and keeps rows paired. *)
Lemma update_paired (batch_size : nat) self (g : rng) :
  feeder_ok self ->
  exists self' g',
    _update_batch_index batch_size self g = Some (self', g')
    /\ feeder_ok self'
    /\ num_observations self' = num_observations self
    /\ Permutation (paired_rows self') (paired_rows self).
Proof.
  intros Hok.
  destruct (Nat.le_gt_cases (batch_index self + batch_size + batch_size)
                            (num_observations self)) as [H|H].
  - rewrite update_advance by exact H.
    do 2 eexists. split; [reflexivity|].
    split; [apply feeder_ok_moved, Hok|]. split; reflexivity.
  - rewrite update_wrap by assumption.
    destruct (shuffle_each_epoch self).
    + pose proof (np_random_permutation_spec (num_observations self) g) as HP.
      do 2 eexists. split; [reflexivity|].
      split; [|split].
      * apply feeder_ok_reordered; [apply feeder_ok_moved, Hok | exact HP].
      * reflexivity.
      * apply (paired_rows_reordered (moved 0 true self));
          [apply feeder_ok_moved, Hok | exact HP].
    + do 2 eexists. split; [reflexivity|].
      split; [apply feeder_ok_moved, Hok|]. split; reflexivity.
Qed.

(** What [get_batch] extracts when a full batch lies at the cursor. *)
Lemma get_batch_extract (batch_size : nat) self (g : rng) :
  feeder_ok self ->
  (batch_index self + batch_size <= num_observations self)%nat ->
  get_batch batch_size self g
  = '(self', g') <- _update_batch_index batch_size self g ;;
    Some (batch_at batch_size self, self', g').
Proof.
  intros Hok Hfit. unfold get_batch, batch_at.
  unfold feeder_ok in Hok.
  destruct (predictors self) as [|f prows|] eqn:Ep; try tauto.
  destruct (response self) as [|c rrows|] eqn:Er; try tauto.
  destruct Hok as (Hf & Hc & Hp & Hr & HFp & HFr).
  set (i := batch_index self) in *.
  simpl index_rows. simpl bind at 1.
  assert (Hlp : length (slice i (i + batch_size) prows) = batch_size)
    by (rewrite length_slice by lia; lia).
  assert (Hlr : length (slice i (i + batch_size) rrows) = batch_size)
    by (rewrite length_slice by lia; lia).
  assert (HFp' := Forall_slice _ i (i + batch_size) _ HFp).
  assert (HFr' := Forall_slice _ i (i + batch_size) _ HFr).
  unfold reshape3, reshape1. simpl ravel.
  rewrite (length_concat_uniform f) by exact HFp'.
  rewrite (length_concat_uniform 1) by exact HFr'.
  rewrite Hlp, Hlr, <- Hf.
  replace (1 * batch_size * f)%nat with (batch_size * f)%nat by lia.
  replace (batch_size * 1)%nat with batch_size by lia.
  rewrite !Nat.eqb_refl. simpl bind.
  replace (batch_size + 0)%nat with batch_size by lia.
  pose proof (chunks_concat f _ HFp') as Hch. rewrite Hlp in Hch. rewrite Hch.
  rewrite chunks_one by (symmetry; exact Hlp).
  simpl rows_of. reflexivity.
Qed.

Lemma batch_at_shape (b : nat) self :
  feeder_ok self ->
  (batch_index self + b <= num_observations self)%nat ->
  shape (predictors_0 (batch_at b self)) = [1%nat; b; num_predictors self]
  /\ shape (response_0 (batch_at b self)) = [b].
Proof.
  intros Hok Hfit.
  unfold feeder_ok in Hok. unfold batch_at. simpl.
  destruct (predictors self) as [|f prows|]; try tauto.
  destruct (response self) as [|c rrows|]; try tauto.
  destruct Hok as (Hf & Hc & Hp & Hr & HFp & HFr). simpl.
  split; [reflexivity|].
  rewrite (length_concat_uniform 1) by (apply Forall_slice, HFr).
  rewrite length_slice by lia. f_equal. lia.
Qed.

Lemma has_reached_end_moved self (i : nat) (e : bool) :
  has_reached_end (moved i e self) = (e, moved i false self).
Proof. reflexivity. Qed.

Lemma has_reached_end_reordered self (order : list nat) (i : nat) (e : bool) :
  has_reached_end (reordered order (moved i e self))
  = (e, reordered order (moved i false self)).
Proof. reflexivity. Qed.

Lemma batches_left_step (n i b : nat) :
  (1 <= b)%nat -> (i + b + b <= n)%nat ->
  ((n - i) / b = S ((n - (i + b)) / b))%nat.
Proof.
  intros Hb H.
  replace (n - i)%nat with ((n - (i + b)) + 1 * b)%nat by lia.
  rewrite Nat.div_add by lia. lia.
Qed.

Lemma batches_left_last (n i b : nat) :
  (1 <= b)%nat -> (i + b <= n)%nat -> (n < i + b + b)%nat ->
  ((n - i) / b = 1)%nat.
Proof.
  intros Hb H1 H2.
  replace (n - i)%nat with ((n - (i + b)) + 1 * b)%nat by lia.
  rewrite Nat.div_add by lia. rewrite Nat.div_small by lia. reflexivity.
Qed.

Lemma run_epoch_S (fuel b : nat) self (g : rng) :
  run_epoch (S fuel) b self g
  = '(bt, self1, g1) <- get_batch b self g ;;
    let (ended, self2) := has_reached_end self1 in
    if ended then Some ([bt], self2, g1)
    else '(bs, self3, g3) <- run_epoch fuel b self2 g1 ;;
         Some (bt :: bs, self3, g3).
Proof. reflexivity. Qed.

(** An epoch started at cursor [i] serves the batches at [i], [i + b], ...
    while a further full batch fits. *)
Lemma run_epoch_from (b : nat) (Hb : (1 <= b)%nat) :
  forall (fuel : nat) self (g : rng),
    feeder_ok self ->
    reached_end self = false ->
    (batch_index self + b <= num_observations self)%nat ->
    ((num_observations self - batch_index self) / b <= fuel)%nat ->
    exists bs self' g',
      run_epoch fuel b self g = Some (bs, self', g')
      /\ length bs = ((num_observations self - batch_index self) / b)%nat
      /\ concat (map (@batch_rows A) bs)
         = slice (batch_index self) (batch_index self + length bs * b)
                 (rows_of (predictors self))
      /\ concat (map (@batch_response A) bs)
         = concat (slice (batch_index self) (batch_index self + length bs * b)
                         (rows_of (response self)))
      /\ Forall (fun fd => shape (predictors_0 fd) = [1%nat; b; num_predictors self]
                           /\ shape (response_0 fd) = [b]) bs
      /\ batch_index self' = 0%nat
      /\ reached_end self' = false.
Proof.
  induction fuel as [|fuel IH]; intros self g Hok Hflag Hfit Hfuel.
  - exfalso.
    assert (1 <= (num_observations self - batch_index self) / b)%nat.
    { apply Nat.div_le_lower_bound; lia. }
    lia.
  - rewrite run_epoch_S, get_batch_extract by assumption.
    assert (Hshape : shape (predictors_0 (batch_at b self))
                     = [1%nat; b; num_predictors self]
                     /\ shape (response_0 (batch_at b self)) = [b]).
    { apply batch_at_shape; assumption. }
    destruct (Nat.le_gt_cases (batch_index self + b + b)
                              (num_observations self)) as [H|H].
    + rewrite update_advance by exact H. rewrite Hflag. run_bind.
      rewrite has_reached_end_moved.
      set (self2 := moved (batch_index self + b) false self).
      destruct (IH self2 g) as (bs & self' & g' & Hrun & Hlen & Hp & Hr & Hsh & Hi & He).
      * apply feeder_ok_moved, Hok.
      * reflexivity.
      * simpl. exact H.
      * simpl. rewrite (batches_left_step _ _ _ Hb H) in Hfuel. lia.
      * rewrite Hrun. run_bind.
        exists (batch_at b self :: bs), self', g'.
        simpl in Hlen, Hp, Hr, Hsh.
        split; [reflexivity|].
        split; [simpl; rewrite Hlen; symmetry; apply batches_left_step; assumption|].
        split; [|split; [|split; [|split]]]; try assumption.
        -- simpl. rewrite Hp. unfold batch_rows at 1. simpl.
           rewrite app_nil_r.
           rewrite slice_cons_next by lia. f_equal. lia.
        -- simpl. rewrite Hr. unfold batch_response at 1. simpl.
           rewrite <- concat_app.
           rewrite slice_cons_next by lia. do 2 f_equal. lia.
        -- constructor; assumption.
    + rewrite update_wrap by assumption.
      assert (Hk := batches_left_last _ _ _ Hb Hfit H).
      assert (Hone : concat (map (@batch_rows A) [batch_at b self])
                     = slice (batch_index self) (batch_index self + 1 * b)
                             (rows_of (predictors self))
                     /\ concat (map (@batch_response A) [batch_at b self])
                        = concat (slice (batch_index self)
                                        (batch_index self + 1 * b)
                                        (rows_of (response self)))).
      { simpl. unfold batch_rows, batch_response. simpl.
        rewrite !app_nil_r. replace (b + 0)%nat with b by lia. split; reflexivity. }
      destruct Hone as [Hone1 Hone2].
      destruct (shuffle_each_epoch self); cbv beta iota zeta delta [bind].
      * rewrite has_reached_end_reordered.
        do 3 eexists. split; [reflexivity|].
        split; [simpl; symmetry; exact Hk|].
        split; [exact Hone1|]. split; [exact Hone2|].
        split; [constructor; [exact Hshape | constructor]|].
        split; reflexivity.
      * rewrite has_reached_end_moved.
        do 3 eexists. split; [reflexivity|].
        split; [simpl; symmetry; exact Hk|].
        split; [exact Hone1|]. split; [exact Hone2|].
        split; [constructor; [exact Hshape | constructor]|].
        split; reflexivity.
Qed.
End FeederFacts.

Section Epochs.
Variable A : Type.
Context {RS : RandomState}.

Lemma init_feeder_ok (F : nat) (prows rrows : list (list A)) (sh : bool)
  (self : TensorFlowData A) :
  length rrows = length prows ->
  Forall (fun r => length r = F) prows ->
  Forall (fun r => length r = 1%nat) rrows ->
  init (Arr2 F prows) (Arr2 1 rrows) sh = Some self ->
  feeder_ok self
  /\ predictors self = Arr2 F prows /\ response self = Arr2 1 rrows
  /\ num_predictors self = F /\ num_observations self = length prows
  /\ batch_index self = 0%nat /\ reached_end self = false.
Proof.
  intros Hlen HFp HFr Hinit. unfold init in Hinit. simpl in Hinit.
  injection Hinit as <-. unfold feeder_ok. simpl. tauto.
Qed.

(** C3. One epoch over a dataset of [N] rows with batch size [B], [1 <= B <= N],
    serves exactly [N / B] batches before the reached-end flag fires; the
    batches hold rows [0 .. (N / B) * B - 1] in order, each once.  When [B]
    divides [N] these are all the rows; otherwise the last [N mod B] rows are
    not served. *)
Theorem epoch_serves_floor_batches
  (F B fuel : nat) (prows rrows : list (list A)) (sh : bool)
  (self : TensorFlowData A) (g : rng) :
  length rrows = length prows ->
  Forall (fun r => length r = F) prows ->
  Forall (fun r => length r = 1%nat) rrows ->
  init (Arr2 F prows) (Arr2 1 rrows) sh = Some self ->
  (1 <= B <= length prows)%nat ->
  (length prows / B <= fuel)%nat ->
  exists bs self' g',
    run_epoch fuel B self g = Some (bs, self', g')
    /\ length bs = (length prows / B)%nat
    /\ concat (map (@batch_rows A) bs) = firstn (length prows / B * B) prows
    /\ concat (map (@batch_response A) bs)
       = concat (firstn (length prows / B * B) rrows)
    /\ Forall (fun fd => shape (predictors_0 fd) = [1%nat; B; F]
                         /\ shape (response_0 fd) = [B]) bs
    /\ ((length prows mod B = 0)%nat ->
        concat (map (@batch_rows A) bs) = prows
        /\ concat (map (@batch_response A) bs) = concat rrows)
    /\ length (skipn (length prows / B * B) prows) = (length prows mod B)%nat
    /\ batch_index self' = 0%nat
    /\ reached_end self' = false.
Proof.
  intros Hlen HFp HFr Hinit [HB1 HB2] Hfuel.
  destruct (init_feeder_ok F prows rrows sh self Hlen HFp HFr Hinit)
    as (Hok & Hp & Hr & Hnp & Hno & Hi & He).
  destruct (run_epoch_from A B HB1 fuel self g Hok He) as
    (bs & self' & g' & Hrun & Hn & Hrows & Hresp & Hsh & Hi' & He').
  - rewrite Hi, Hno. simpl. exact HB2.
  - rewrite Hi, Hno, Nat.sub_0_r. exact Hfuel.
  - rewrite Hi, Hno, Nat.sub_0_r in Hn.
    rewrite Hi, Hp in Hrows. rewrite Hi, Hr in Hresp. rewrite Hnp in Hsh.
    simpl in Hrows, Hresp. unfold slice in Hrows, Hresp.
    rewrite Nat.sub_0_r, Hn in Hrows, Hresp. simpl skipn in Hrows, Hresp.
    pose proof (Nat.div_mod_eq (length prows) B) as Hdm.
    exists bs, self', g'.
    repeat (split; [assumption|]).
    split; [|split; [|split; assumption]].
    + intros Hmod. rewrite Hrows, Hresp.
      rewrite !firstn_all2 by lia. split; reflexivity.
    + rewrite length_skipn. lia.
Qed.

End Epochs.

(** The epoch theorem at five rows and batch size two: two batches, the fifth
    row left out. *)
Lemma epoch_serves_floor_batches_witness :
  exists bs self' g',
    run_epoch (RS := rotating_random) 2 2
      {| predictors := Arr2 1 [[10]; [11]; [12]; [13]; [14]]%nat;
         num_predictors := 1;
         response := Arr2 1 [[20]; [21]; [22]; [23]; [24]]%nat;
         batch_index := 0;
         reached_end := false;
         num_observations := 5;
         shuffle_each_epoch := true |} 1%nat
    = Some (bs, self', g')
    /\ length bs = 2%nat
    /\ concat (map (@batch_rows nat) bs) = [[10]; [11]; [12]; [13]]%nat.
Proof.
  destruct (@epoch_serves_floor_batches nat rotating_random 1 2 2
              [[10]; [11]; [12]; [13]; [14]]%nat
              [[20]; [21]; [22]; [23]; [24]]%nat true
              {| predictors := Arr2 1 [[10]; [11]; [12]; [13]; [14]]%nat;
                 num_predictors := 1;
                 response := Arr2 1 [[20]; [21]; [22]; [23]; [24]]%nat;
                 batch_index := 0;
                 reached_end := false;
                 num_observations := 5;
                 shuffle_each_epoch := true |} 1%nat)
    as (bs & self' & g' & Hrun & Hn & Hrows & _).
  - reflexivity.
  - repeat constructor.
  - repeat constructor.
  - reflexivity.
  - simpl. lia.
  - simpl. lia.
  - exists bs, self', g'. split; [exact Hrun|]. split; [exact Hn | exact Hrows].
Defined.

Section Pairing.
Variable A : Type.
Context {RS : RandomState}.

(** C6. [shuffle] rearranges the predictor rows and the response rows by one
    and the same permutation, so the rows stay paired and the collection of
    (predictor row, response row) pairs is unchanged; [get_batch],
    [has_reached_end] and [reset_batch_index] keep the pairing as well. *)
Theorem feeder_operations_keep_rows_paired (self : TensorFlowData A) :
  feeder_ok self ->
  (forall (random_seed : option Z) (g : rng),
      seed_in_range random_seed ->
      exists order self' g',
        shuffle random_seed self g = Some (self', g')
        /\ Permutation order (seq 0 (num_observations self))
        /\ rows_of (predictors self')
           = map (fun i => nth i (rows_of (predictors self)) []) order
        /\ rows_of (response self')
           = map (fun i => nth i (rows_of (response self)) []) order
        /\ Permutation (paired_rows self') (paired_rows self)
        /\ feeder_ok self')
  /\ (forall (batch_size : nat) (g : rng) b self' g',
         get_batch batch_size self g = Some (b, self', g') ->
         Permutation (paired_rows self') (paired_rows self) /\ feeder_ok self')
  /\ (paired_rows (snd (has_reached_end self)) = paired_rows self
      /\ feeder_ok (snd (has_reached_end self)))
  /\ (paired_rows (reset_batch_index self) = paired_rows self
      /\ feeder_ok (reset_batch_index self)).
Proof.
  intros Hok. split; [|split; [|split]].
  - intros random_seed g Hseed.
    pose proof (np_random_permutation_spec (num_observations self)
                  (state_after_seed random_seed g)) as HP.
    do 3 eexists. split; [apply shuffle_reordered; assumption|].
    split; [exact HP|]. split; [reflexivity|]. split; [reflexivity|].
    split; [apply paired_rows_reordered | apply feeder_ok_reordered]; assumption.
  - intros batch_size g b self' g' Hget. unfold get_batch in Hget.
    do 4 (apply bind_Some in Hget; destruct Hget as (? & _ & Hget)).
    apply bind_Some in Hget. destruct Hget as ([self1 g1] & Hupd & Hget).
    injection Hget as _ <- _.
    destruct (update_paired A batch_size self g Hok)
      as (self2 & g2 & Hupd' & Hok' & _ & HP).
    rewrite Hupd in Hupd'. injection Hupd' as <- <-. split; assumption.
  - split; [reflexivity | exact Hok].
  - split; [reflexivity | exact Hok].
Qed.

(** C8. [has_reached_end] is read-once: with the flag set, two calls in a row
    answer true and then false, and neither changes the cursor or the data. *)
Theorem has_reached_end_read_once (self : TensorFlowData A) :
  reached_end self = true ->
  let first := has_reached_end self in
  let second := has_reached_end (snd first) in
  fst first = true /\ fst second = false
  /\ snd first = moved (batch_index self) false self
  /\ snd second = moved (batch_index self) false self
  /\ batch_index (snd first) = batch_index self
  /\ predictors (snd first) = predictors self
  /\ response (snd first) = response self.
Proof.
  intros H. simpl. rewrite H. repeat split.
Qed.

(** C9, the part that holds: over a response column of shape [N, 1] a full
    batch at the cursor is served with a response of shape [batch_size], and
    [shuffle] succeeds; over a one-dimensional response both calls raise. *)
Theorem feeder_needs_response_column (self : TensorFlowData A) :
  (feeder_ok self ->
   (forall (batch_size : nat) (g : rng),
       (batch_index self + batch_size <= num_observations self)%nat ->
       exists b self' g',
         get_batch batch_size self g = Some (b, self', g')
         /\ shape (response_0 b) = [batch_size]
         /\ shape (predictors_0 b) = [1%nat; batch_size; num_predictors self])
   /\ (forall (random_seed : option Z) (g : rng),
          seed_in_range random_seed ->
          exists self' g', shuffle random_seed self g = Some (self', g')))
  /\ ((exists xs, response self = Arr1 xs) ->
      (forall (batch_size : nat) (g : rng), get_batch batch_size self g = None)
      /\ (forall (random_seed : option Z) (g : rng),
             shuffle random_seed self g = None)).
Proof.
  split.
  - intros Hok. split.
    + intros batch_size g Hfit.
      rewrite get_batch_extract by assumption.
      destruct (update_paired A batch_size self g Hok)
        as (self' & g' & Hupd & _).
      rewrite Hupd. simpl. exists (batch_at batch_size self), self', g'.
      split; [reflexivity|].
      destruct (batch_at_shape A batch_size self Hok Hfit) as [Hs1 Hs2].
      split; assumption.
    + intros random_seed g Hseed. do 2 eexists.
      apply shuffle_reordered; assumption.
  - intros [xs Hxs]. split.
    + intros batch_size g. unfold get_batch. rewrite Hxs.
      destruct (index_rows (predictors self) _ _) as [ps|]; [|reflexivity].
      simpl. destruct (reshape3 ps _ _ _); reflexivity.
    + intros random_seed g. unfold shuffle. rewrite Hxs.
      destruct (match random_seed with Some _ => _ | None => _ end);
        [|reflexivity].
      simpl. destruct (np_random_permutation _ _) as [new_order g2].
      destruct (take_rows (predictors self) new_order); reflexivity.
Qed.
End Pairing.

Lemma sample_feeder_ok (flag : bool) : feeder_ok (sample_feeder flag).
Proof.
  unfold feeder_ok. simpl. repeat split; repeat constructor.
Qed.

(** The pairing theorem at the sample feeder, shuffled with seed 42. *)
Lemma feeder_operations_keep_rows_paired_witness :
  exists order self' g',
    shuffle (RS := rotating_random) (Some 42%Z) (sample_feeder false) 3%nat
    = Some (self', g')
    /\ Permutation order (seq 0 5)
    /\ rows_of (predictors self')
       = map (fun i => nth i (rows_of (predictors (sample_feeder false))) []) order
    /\ rows_of (response self')
       = map (fun i => nth i (rows_of (response (sample_feeder false))) []) order
    /\ Permutation (paired_rows self') (paired_rows (sample_feeder false))
    /\ feeder_ok self'.
Proof.
  destruct (@feeder_operations_keep_rows_paired nat rotating_random
              (sample_feeder false) (sample_feeder_ok false)) as [Hshuffle _].
  apply (Hshuffle (Some 42%Z) 3%nat).
  simpl. lia.
Defined.

(** The read-once theorem at the sample feeder with its flag set. *)
Lemma has_reached_end_read_once_witness :
  fst (has_reached_end (sample_feeder true)) = true
  /\ fst (has_reached_end (snd (has_reached_end (sample_feeder true)))) = false.
Proof.
  destruct (@has_reached_end_read_once nat (sample_feeder true) eq_refl)
    as (H1 & H2 & _).
  split; [exact H1 | exact H2].
Defined.

(** The response-column theorem at the sample feeder. *)
Lemma feeder_needs_response_column_witness :
  exists b self' g',
    get_batch (RS := rotating_random) 2 (sample_feeder false) 0%nat
    = Some (b, self', g')
    /\ shape (response_0 b) = [2%nat]
    /\ shape (predictors_0 b) = [1; 2; 1]%nat.
Proof.
  destruct (@feeder_needs_response_column nat rotating_random
              (sample_feeder false)) as [Hcol _].
  destruct (Hcol (sample_feeder_ok false)) as [Hget _].
  apply (Hget 2%nat 0%nat). simpl. lia.
Defined.

(** C9 as stated fails: a response vector of shape [5] is accepted by
    [__init__], and then both [get_batch] and [shuffle] raise. *)
Lemma response_vector_breaks_feeder :
  init (Arr2 1 [[10]; [11]; [12]; [13]; [14]]%nat)
       (Arr1 [20; 21; 22; 23; 24]%nat) true
  = Some sample_feeder_flat
  /\ shape (response sample_feeder_flat) = [5%nat]
  /\ get_batch (RS := rotating_random) 2 sample_feeder_flat 0%nat = None
  /\ shuffle (RS := rotating_random) None sample_feeder_flat 0%nat = None.
Proof. repeat split. Qed.

(** A truthy seed fixes the order whatever the random state was. *)
Lemma shuffle_nonzero_seed_deterministic {RS : RandomState} (A : Type)
  (s : Z) (self : TensorFlowData A) (g1 g2 : rng) :
  s <> 0%Z ->
  shuffle (Some s) self g1 = shuffle (Some s) self g2.
Proof.
  intros Hs. unfold shuffle.
  apply Z.eqb_neq in Hs. rewrite Hs. reflexivity.
Qed.

(** C7 at seed 0: the seed is not installed, and the order follows the random
    state the call happens to find. *)
Theorem shuffle_seed_zero_follows_state :
  option_map (fun r => predictors (fst r))
             (shuffle (RS := rotating_random) (Some 0%Z) (sample_feeder false) 1%nat)
  = Some (Arr2 1 [[11]; [12]; [13]; [14]; [10]]%nat)
  /\ option_map (fun r => predictors (fst r))
                (shuffle (RS := rotating_random) (Some 0%Z) (sample_feeder false) 2%nat)
     = Some (Arr2 1 [[12]; [13]; [14]; [10]; [11]]%nat).
Proof. split; reflexivity. Qed.

(** * The scoring loop *)

Section Scoring.
Context {RS : RandomState}.
Variable batch_size : nat.
Variable session_run_loss : feed_dict R -> option R.

Lemma moved_same (A : Type) (self : TensorFlowData A) :
  reached_end self = false -> moved (batch_index self) false self = self.
Proof.
  destruct self; simpl. intros ->. reflexivity.
Qed.

Lemma score_loop_S (fuel : nat) (scores : list (list R))
  (data : TensorFlowData R) (g : rng) :
  score_loop batch_size session_run_loss (S fuel) scores data g
  = if reached_end data
    then Some (scores, moved (batch_index data) false data, g)
    else '(b, data2, g2) <-
           get_batch batch_size (moved (batch_index data) false data) g ;;
         loss <- session_run_loss (with_dropout 1 b) ;;
         score_loop batch_size session_run_loss fuel (scores ++ [[loss]]) data2 g2.
Proof. reflexivity. Qed.

(** The loop scores exactly the batches of one epoch. *)
Lemma score_loop_run_epoch :
  forall (n fuel : nat) (data : TensorFlowData R) (g : rng)
         (acc : list (list R)) bs data' g',
    (n < fuel)%nat ->
    reached_end data = false ->
    run_epoch n batch_size data g = Some (bs, data', g') ->
    score_loop batch_size session_run_loss fuel acc data g
    = losses <- mapM (fun b => session_run_loss (with_dropout 1 b)) bs ;;
      Some (acc ++ map (fun l => [l]) losses, data', g').
Proof.
  induction n as [|n IH]; intros fuel data g acc bs data' g' Hfuel Hflag Hrun.
  - discriminate Hrun.
  - destruct fuel as [|fuel]; [lia|].
    rewrite score_loop_S, Hflag, (moved_same R data Hflag).
    rewrite run_epoch_S in Hrun.
    destruct (get_batch batch_size data g) as [[[b data1] g1]|];
      [|discriminate Hrun].
    run_bind in Hrun. run_bind.
    destruct (reached_end data1) eqn:Eend.
    + simpl in Hrun. rewrite Eend in Hrun. injection Hrun as <- <- <-.
      simpl mapM. run_bind.
      destruct (session_run_loss (with_dropout 1 b)) as [loss|]; [|reflexivity].
      destruct fuel as [|fuel]; [lia|].
      rewrite score_loop_S, Eend. reflexivity.
    + simpl in Hrun. rewrite Eend in Hrun.
      fold (moved (batch_index data1) false data1) in Hrun.
      rewrite (moved_same R data1 Eend) in Hrun.
      destruct (run_epoch n batch_size data1 g1) as [[[bs1 data3] g3]|] eqn:Erun;
        [|discriminate Hrun].
      simpl in Hrun. injection Hrun as <- <- <-.
      simpl mapM. run_bind.
      destruct (session_run_loss (with_dropout 1 b)) as [loss|]; [|reflexivity].
      rewrite (IH fuel data1 g1 (acc ++ [[loss]]) bs1 data3 g3);
        [|lia|exact Eend|exact Erun].
      destruct (mapM _ bs1) as [losses|]; [|reflexivity].
      simpl. rewrite <- app_assoc. reflexivity.
Qed.
End Scoring.

Lemma concat_singletons {X : Type} (l : list X) :
  concat (map (fun x => [x]) l) = l.
Proof.
  induction l as [|x l IH]; simpl; [reflexivity | rewrite IH; reflexivity].
Qed.

Lemma Rsum_nonneg (l : list R) : Forall (fun x => 0 <= x) l -> 0 <= Rsum l.
Proof.
  induction 1 as [|x l Hx _ IH]; simpl; lra.
Qed.

Lemma root_mean_defined (l : list R) :
  l <> [] -> Forall (fun x => 0 <= x) l ->
  math_sqrt (np_mean l) = Some (Num (sqrt (Rsum l / INR (length l)))).
Proof.
  intros Hne Hpos. destruct l as [|x l]; [congruence|].
  unfold np_mean, math_sqrt.
  destruct (Rle_dec 0 (Rsum (x :: l) / INR (length (x :: l)))) as [_|Hneg];
    [reflexivity|].
  exfalso. apply Hneg.
  apply Rmult_le_pos; [apply Rsum_nonneg, Hpos|].
  left. apply Rinv_0_lt_compat. apply lt_0_INR. simpl. lia.
Qed.

Section ScoreTheorems.
Context {RS : RandomState}.
Variable batch_size : nat.
Variable session_run_loss : feed_dict R -> option R.

(** C4. [score] pulls the batches of one epoch, as delimited by
    [has_reached_end], evaluates the loss on each with dropout 1.0, and returns
    the square root of the mean of these losses; the number of batches,
    [(N - cursor) / batch_size], comes from the feeder alone. *)
Theorem score_root_mean_of_epoch_losses
  (data : TensorFlowData R) (g : rng) (fuel : nat) :
  feeder_ok data ->
  reached_end data = false ->
  (1 <= batch_size)%nat ->
  (batch_index data + batch_size <= num_observations data)%nat ->
  ((num_observations data - batch_index data) / batch_size < fuel)%nat ->
  exists bs data' g',
    run_epoch ((num_observations data - batch_index data) / batch_size)
              batch_size data g = Some (bs, data', g')
    /\ length bs = ((num_observations data - batch_index data) / batch_size)%nat
    /\ score batch_size session_run_loss fuel data g
       = (losses <- mapM (fun b => session_run_loss (with_dropout 1 b)) bs ;;
          result <- math_sqrt (np_mean losses) ;;
          Some (result, data', g'))
    /\ (forall losses,
           mapM (fun b => session_run_loss (with_dropout 1 b)) bs = Some losses ->
           Forall (fun x => 0 <= x) losses ->
           score batch_size session_run_loss fuel data g
           = Some (Num (sqrt (Rsum losses / INR (length bs))), data', g')).
Proof.
  intros Hok Hflag Hb Hfit Hfuel.
  destruct (run_epoch_from R batch_size Hb _ data g Hok Hflag Hfit (le_n _))
    as (bs & data' & g' & Hrun & Hlen & _).
  exists bs, data', g'.
  assert (Hscore :
    score batch_size session_run_loss fuel data g
    = (losses <- mapM (fun b => session_run_loss (with_dropout 1 b)) bs ;;
       result <- math_sqrt (np_mean losses) ;;
       Some (result, data', g'))).
  { unfold score.
    rewrite (score_loop_run_epoch batch_size session_run_loss _ fuel data g []
               bs data' g' Hfuel Hflag Hrun).
    destruct (mapM _ bs) as [losses|]; [|reflexivity].
    simpl. rewrite concat_singletons. reflexivity. }
  repeat split; try assumption.
  intros losses Hlosses Hpos. rewrite Hscore, Hlosses.
  run_bind.
  assert (Hll : length losses = length bs).
  { clear -Hlosses. revert losses Hlosses.
    induction bs as [|b bs IH]; simpl; intros losses H.
    - injection H as <-. reflexivity.
    - destruct (session_run_loss (with_dropout 1 b)); [|discriminate].
      simpl in H. destruct (mapM _ bs) as [ls|]; [|discriminate].
      simpl in H. injection H as <-. simpl. f_equal. apply IH. reflexivity. }
  rewrite root_mean_defined, Hll; [reflexivity| |exact Hpos].
  intros ->. simpl in Hll.
  assert (1 <= (num_observations data - batch_index data) / batch_size)%nat
    by (apply Nat.div_le_lower_bound; lia).
  lia.
Qed.

(** C10. Entered with the reached-end flag set, [score] pulls no batch: the
    flag is consumed, nothing else changes, the list of losses is empty and
    the result is not-a-number. *)
Theorem score_with_flag_set_is_nan
  (data : TensorFlowData R) (g : rng) (fuel : nat) :
  reached_end data = true ->
  (1 <= fuel)%nat ->
  score_loop batch_size session_run_loss fuel [] data g
  = Some ([], moved (batch_index data) false data, g)
  /\ score batch_size session_run_loss fuel data g
     = Some (NaN, moved (batch_index data) false data, g).
Proof.
  intros Hflag Hfuel. destruct fuel as [|fuel]; [lia|].
  unfold score. rewrite score_loop_S, Hflag. split; reflexivity.
Qed.
End ScoreTheorems.

(** The scoring theorem at six observations, batch size two and a loss of 4
    on every batch: three batches, score 2. *)
Lemma score_root_mean_of_epoch_losses_witness :
  exists bs data' g',
    run_epoch (RS := rotating_random) 3 2 (sample_data false) 0%nat
    = Some (bs, data', g')
    /\ length bs = 3%nat
    /\ score (RS := rotating_random) 2 (fun _ => Some 4) 4 (sample_data false) 0%nat
       = Some (Num (sqrt ((4 + (4 + (4 + 0))) / INR 3)), data', g').
Proof.
  assert (Hok : feeder_ok (sample_data false))
    by (unfold feeder_ok; simpl; repeat split; repeat constructor).
  destruct (@score_root_mean_of_epoch_losses rotating_random 2 (fun _ => Some 4)
              (sample_data false) 0%nat 4 Hok eq_refl)
    as (bs & data' & g' & Hrun & Hlen & _ & Hscore).
  - lia.
  - simpl. lia.
  - simpl. lia.
  - exists bs, data', g'. simpl in Hrun, Hlen.
    split; [exact Hrun|]. split; [exact Hlen|].
    destruct bs as [|b1 [|b2 [|b3 [|b4 bs]]]]; try discriminate Hlen.
    apply (Hscore [4; 4; 4]); [reflexivity|].
    repeat constructor; lra.
Defined.

(** The flag-set theorem at the sample data. *)
Lemma score_with_flag_set_is_nan_witness :
  score (RS := rotating_random) 2 (fun _ => Some 4) 1 (sample_data true) 0%nat
  = Some (NaN, sample_data false, 0%nat).
Proof.
  apply (@score_with_flag_set_is_nan rotating_random 2 (fun _ => Some 4)
           (sample_data true) 0%nat 1 eq_refl (le_n 1)).
Defined.

(** * The prediction graph *)

(** ** Tabulated lists *)

Lemma tabulate_ext {X : Type} (n : nat) (f g : nat -> X) :
  (forall i, (i < n)%nat -> f i = g i) -> tabulate n f = tabulate n g.
Proof.
  intros H. unfold tabulate. apply map_ext_in. intros i Hi.
  apply in_seq in Hi. apply H. lia.
Qed.

Lemma length_tabulate {X : Type} (n : nat) (f : nat -> X) :
  length (tabulate n f) = n.
Proof. unfold tabulate. rewrite length_map, length_seq. reflexivity. Qed.

Lemma nth_error_tabulate {X : Type} (n : nat) (f : nat -> X) (i : nat) :
  (i < n)%nat -> nth_error (tabulate n f) i = Some (f i).
Proof.
  intros Hi. unfold tabulate. rewrite nth_error_map.
  rewrite (nth_error_nth' (seq 0 n) 0%nat) by (rewrite length_seq; exact Hi).
  rewrite seq_nth by exact Hi. reflexivity.
Qed.

Lemma nth_tabulate {X : Type} (n : nat) (f : nat -> X) (i : nat) (d : X) :
  (i < n)%nat -> nth i (tabulate n f) d = f i.
Proof.
  intros Hi. apply nth_error_nth. apply nth_error_tabulate. exact Hi.
Qed.

Lemma tabulate_nth {X : Type} (d : X) (l : list X) :
  l = tabulate (length l) (fun i => nth i l d).
Proof. unfold tabulate. symmetry. apply map_nth_seq. Qed.

Lemma map_tabulate {X Y : Type} (g : X -> Y) (n : nat) (f : nat -> X) :
  map g (tabulate n f) = tabulate n (fun i => g (f i)).
Proof. unfold tabulate. apply map_map. Qed.

Lemma map2_tabulate {X Y Z : Type} (op : X -> Y -> Z) (n : nat)
  (f : nat -> X) (g : nat -> Y) :
  map2 op (tabulate n f) (tabulate n g) = tabulate n (fun i => op (f i) (g i)).
Proof.
  unfold map2, tabulate. generalize 0%nat.
  induction n as [|n IH]; intros s; simpl; [reflexivity|].
  rewrite IH. reflexivity.
Qed.

Lemma tabulate_S {X : Type} (n : nat) (f : nat -> X) :
  tabulate (S n) f = f 0%nat :: tabulate n (fun i => f (S i)).
Proof.
  unfold tabulate. simpl. f_equal. rewrite <- seq_shift, map_map. reflexivity.
Qed.

Lemma seq_from (s m : nat) : seq s m = map (fun i => (s + i)%nat) (seq 0 m).
Proof.
  revert s. induction m as [|m IH]; intros s; simpl; [reflexivity|].
  rewrite Nat.add_0_r. f_equal.
  rewrite (IH (S s)), (IH 1%nat), map_map.
  apply map_ext. intros i. lia.
Qed.

Lemma tabulate_app {X : Type} (n m : nat) (f g : nat -> X) :
  tabulate n f ++ tabulate m g
  = tabulate (n + m) (fun i => if (i <? n)%nat then f i else g (i - n)%nat).
Proof.
  unfold tabulate. rewrite seq_app, map_app. f_equal.
  - apply map_ext_in. intros i Hi. apply in_seq in Hi.
    destruct (Nat.ltb_spec i n); [reflexivity | lia].
  - simpl. rewrite (seq_from n m), map_map.
    apply map_ext. intros i.
    destruct (Nat.ltb_spec (n + i) n); [lia|].
    f_equal. lia.
Qed.

Lemma repeat_tabulate {X : Type} (x : X) (n : nat) :
  repeat x n = tabulate n (fun _ => x).
Proof.
  induction n as [|n IH]; [reflexivity|].
  rewrite tabulate_S. simpl. rewrite IH. reflexivity.
Qed.

Lemma mapM_Some {X Y : Type} (f : X -> option Y) (g : X -> Y) (l : list X) :
  (forall x, In x l -> f x = Some (g x)) ->
  mapM f l = Some (map g l).
Proof.
  induction l as [|x l IH]; intros H; simpl; [reflexivity|].
  rewrite (H x (or_introl eq_refl)). simpl.
  rewrite IH by (intros y Hy; apply H; right; exact Hy).
  reflexivity.
Qed.

Lemma tf_gather_tabulate {X : Type} (n : nat) (f : nat -> X) (idx : list nat) :
  Forall (fun i => (i < n)%nat) idx ->
  tf_gather (tabulate n f) idx = Some (map f idx).
Proof.
  intros H. unfold tf_gather. apply mapM_Some.
  intros i Hi. rewrite Forall_forall in H.
  apply nth_error_tabulate. apply H. exact Hi.
Qed.

(** ** Tensor operations on tabulated tensors *)

Lemma has_shape3_tabulate3 (n m p : nat) (t : Tensor3) :
  has_shape3 n m p t = true -> t = tabulate3 n m p (get3 t).
Proof.
  unfold has_shape3. intros H.
  apply andb_prop in H. destruct H as [Hn Hplanes].
  apply Nat.eqb_eq in Hn. rewrite forallb_forall in Hplanes.
  rewrite (tabulate_nth [] t) at 1. rewrite Hn.
  unfold tabulate3. apply tabulate_ext. intros i Hi.
  assert (Hin : In (nth i t []) t) by (apply nth_In; lia).
  specialize (Hplanes _ Hin).
  apply andb_prop in Hplanes. destruct Hplanes as [Hm Hrows].
  apply Nat.eqb_eq in Hm. rewrite forallb_forall in Hrows.
  rewrite (tabulate_nth [] (nth i t [])) at 1. rewrite Hm.
  apply tabulate_ext. intros j Hj.
  assert (Hin' : In (nth j (nth i t []) []) (nth i t []))
    by (apply nth_In; lia).
  specialize (Hrows _ Hin'). apply Nat.eqb_eq in Hrows.
  rewrite (tabulate_nth 0 (nth j (nth i t []) [])) at 1. rewrite Hrows.
  reflexivity.
Qed.


Lemma get3_tabulate3 (n m p : nat) (f : nat -> nat -> nat -> R) (i j k : nat) :
  (i < n)%nat -> (j < m)%nat -> (k < p)%nat ->
  get3 (tabulate3 n m p f) i j k = f i j k.
Proof.
  intros Hi Hj Hk. unfold get3, tabulate3.
  rewrite !nth_tabulate by assumption. reflexivity.
Qed.

Lemma tabulate3_ext (n m p : nat) (f g : nat -> nat -> nat -> R) :
  (forall i j k, (i < n)%nat -> (j < m)%nat -> (k < p)%nat -> f i j k = g i j k) ->
  tabulate3 n m p f = tabulate3 n m p g.
Proof.
  intros H. unfold tabulate3.
  apply tabulate_ext. intros i Hi.
  apply tabulate_ext. intros j Hj.
  apply tabulate_ext. intros k Hk. apply H; assumption.
Qed.

Lemma map3_tabulate3 (g : R -> R) (n m p : nat) (f : nat -> nat -> nat -> R) :
  map3 g (tabulate3 n m p f) = tabulate3 n m p (fun i j k => g (f i j k)).
Proof.
  unfold map3, tabulate3. rewrite map_tabulate.
  apply tabulate_ext. intros i _. rewrite map_tabulate.
  apply tabulate_ext. intros j _. apply map_tabulate.
Qed.

Lemma dot_tabulate (n : nat) (u v : nat -> R) :
  dot (tabulate n u) (tabulate n v) = Rsum (map (fun f => u f * v f) (seq 0 n)).
Proof. unfold dot. rewrite map2_tabulate. reflexivity. Qed.

Lemma tf_matmul_tabulate3 (n b f t : nat) (a w : nat -> nat -> nat -> R) :
  (1 <= f)%nat ->
  tf_matmul (tabulate3 n b f a) (tabulate3 n f t w)
  = tabulate3 n b t
      (fun i j k => Rsum (map (fun c => a i j c * w i c k) (seq 0 f))).
Proof.
  intros Hf. unfold tf_matmul, tabulate3. rewrite map2_tabulate.
  apply tabulate_ext. intros i _. simpl fst. simpl snd.
  rewrite map_tabulate. apply tabulate_ext. intros j _.
  destruct f as [|f]; [lia|].
  rewrite (tabulate_S f (fun c => tabulate t (fun k => w i c k))) at 1.
  simpl hd. rewrite length_tabulate.
  change (map ?g (seq 0 t)) with (tabulate t g).
  apply tabulate_ext. intros k Hk.
  rewrite map_tabulate, dot_tabulate.
  f_equal. apply map_ext. intros c. rewrite nth_tabulate by exact Hk. reflexivity.
Qed.

Lemma concat_repeat_singleton {X : Type} (x : X) (n : nat) :
  concat (repeat [x] n) = repeat x n.
Proof.
  induction n as [|n IH]; simpl; [reflexivity | rewrite IH; reflexivity].
Qed.

Lemma tf_tile1_tabulate3 (n reps t : nat) (b : nat -> nat -> nat -> R) :
  tf_tile1 (tabulate3 n 1 t b) reps
  = tabulate3 n reps t (fun i _ k => b i 0%nat k).
Proof.
  unfold tf_tile1, tabulate3. rewrite map_tabulate.
  apply tabulate_ext. intros i _.
  change (tabulate 1 (fun j => tabulate t (fun k => b i j k)))
    with [tabulate t (fun k => b i 0%nat k)].
  rewrite concat_repeat_singleton. apply repeat_tabulate.
Qed.

Lemma broadcast_plane_row (op : R -> R -> R) (m t : nat)
  (x : nat -> nat -> R) (y : nat -> R) :
  match [tabulate t y] with
  | [rb] => map (fun ra => map2 op ra rb) (tabulate m (fun j => tabulate t (x j)))
  | _ => map2 (map2 op) (tabulate m (fun j => tabulate t (x j))) [tabulate t y]
  end
  = tabulate m (fun j => tabulate t (fun k => op (x j k) (y k))).
Proof.
  cbv beta iota.
  rewrite map_tabulate. apply tabulate_ext. intros j _. apply map2_tabulate.
Qed.

Lemma broadcast_row_tabulate3 (op : R -> R -> R) (n m t : nat)
  (x y : nat -> nat -> nat -> R) :
  broadcast op (tabulate3 n m t x) (tabulate3 n 1 t y)
  = tabulate3 n m t (fun i j k => op (x i j k) (y i 0%nat k)).
Proof.
  unfold broadcast, tabulate3. rewrite map2_tabulate.
  apply tabulate_ext. intros i _. simpl fst. simpl snd.
  apply (broadcast_plane_row op m t (x i) (y i 0%nat)).
Qed.

Lemma broadcast_same_tabulate3 (op : R -> R -> R) (n m t : nat)
  (x y : nat -> nat -> nat -> R) :
  broadcast op (tabulate3 n m t x) (tabulate3 n m t y)
  = tabulate3 n m t (fun i j k => op (x i j k) (y i j k)).
Proof.
  unfold broadcast, tabulate3. rewrite map2_tabulate.
  apply tabulate_ext. intros i _. simpl fst. simpl snd.
  destruct m as [|[|m]].
  - reflexivity.
  - apply (broadcast_plane_row op 1 t (x i) (y i 0%nat)).
  - remember (tabulate (S (S m)) (fun j => tabulate t (fun k => y i j k)))
      as pb eqn:E.
    assert (Hlen : length pb = S (S m)) by (subst pb; apply length_tabulate).
    destruct pb as [|r0 [|r1 pb']]; try discriminate Hlen.
    rewrite E, map2_tabulate. apply tabulate_ext. intros j _. apply map2_tabulate.
Qed.

(** ** The per-level probabilities *)

Lemma replicated_indices (a b : nat) :
  (1 <= a)%nat ->
  concat (repeat (seq 0 a) b) = map (fun l => (l mod a)%nat) (seq 0 (b * a)).
Proof.
  intros Ha. induction b as [|b IH]; [reflexivity|].
  simpl repeat. simpl concat. simpl Nat.mul.
  rewrite seq_app, map_app, IH. f_equal.
  - rewrite <- (map_id (seq 0 a)) at 1. apply map_ext_in.
    intros i Hi. apply in_seq in Hi. symmetry. apply Nat.mod_small. lia.
  - simpl. rewrite (seq_from a (b * a)), map_map.
    apply map_ext. intros i.
    replace (a + i)%nat with (i + 1 * a)%nat by lia.
    symmetry. apply Nat.Div0.mod_add.
Qed.

Lemma pow2_pos (n : nat) : (1 <= 2 ^ n)%nat.
Proof.
  pose proof (Nat.pow_nonzero 2 n). lia.
Qed.

Lemma pow2_split (d D : nat) :
  (d < D)%nat -> (2 ^ (D - d - 1) * 2 ^ (d + 1) = 2 ^ D)%nat.
Proof.
  intros H. rewrite <- Nat.pow_add_r. f_equal. lia.
Qed.

Lemma pow2_double (d : nat) : (2 ^ (d + 1) = 2 ^ d + 2 ^ d)%nat.
Proof. rewrite Nat.add_1_r. simpl. lia. Qed.

Section GraphFacts.
Variables F T D B : nat.
Variables sw sb ss : nat -> nat -> nat -> nat -> R.
Variables tw tb : nat -> nat -> nat -> R.
Variable xv : nat -> nat -> nat -> R.
Hypothesis F_pos : (1 <= F)%nat.

Lemma gather_root (n : nat) :
  tf_gather (tabulate3 1 B F xv) (repeat 0%nat n)
  = Some (tabulate3 n B F (fun _ j c => xv 0%nat j c)).
Proof.
  unfold tabulate3 at 1. rewrite tf_gather_tabulate.
  - rewrite repeat_tabulate, map_tabulate. reflexivity.
  - apply Forall_forall. intros i Hi. apply repeat_spec in Hi. lia.
Qed.

Lemma build_split_prob_closed (d : nat) :
  (d < D)%nat ->
  _build_split_prob F T D B sw sb ss (tabulate3 1 B F xv) d
  = Some (tabulate3 (2 ^ D) B T (branch_probability F sw sb ss (xv 0%nat) d)).
Proof.
  intros Hd. unfold _build_split_prob.
  rewrite gather_root. run_bind.
  unfold split_weight, split_bias, split_strength, random_variable.
  change (map ?f (seq 0 D)) with (tabulate D f).
  rewrite !nth_error_tabulate by exact Hd.
  run_bind.
  rewrite tf_matmul_tabulate3 by exact F_pos.
  rewrite tf_tile1_tabulate3, broadcast_same_tabulate3.
  rewrite map3_tabulate3, broadcast_row_tabulate3, !map3_tabulate3.
  unfold tabulate3 at 1 2. rewrite tabulate_app.
  rewrite <- pow2_double.
  rewrite replicated_indices by apply pow2_pos.
  rewrite (pow2_split d D Hd).
  rewrite tf_gather_tabulate.
  - rewrite map_map. apply f_equal.
    change (map ?f (seq 0 (2 ^ D))) with (tabulate (2 ^ D) f).
    unfold tabulate3. apply tabulate_ext. intros l _.
    unfold branch_probability. cbv zeta.
    destruct (l mod 2 ^ (d + 1) <? 2 ^ d)%nat; reflexivity.
  - apply Forall_forall. intros i Hi. apply in_map_iff in Hi.
    destruct Hi as (l & <- & _).
    apply Nat.mod_upper_bound. pose proof (pow2_pos (d + 1)). lia.
Qed.
Lemma stack_from_tabulate3 (n m p : nat) (f0 : nat -> nat -> nat -> R)
  (fs : list (nat -> nat -> nat -> R)) :
  stack_from (tabulate3 n m p f0) (map (tabulate3 n m p) fs)
  = tabulate n (fun i => tabulate m (fun j => tabulate p (fun k =>
      f0 i j k :: map (fun f => f i j k) fs))).
Proof.
  revert f0. induction fs as [|f1 fs IH]; intros f0.
  - simpl. unfold map3, tabulate3. rewrite map_tabulate.
    apply tabulate_ext. intros i _. rewrite map_tabulate.
    apply tabulate_ext. intros j _. apply map_tabulate.
  - simpl map. simpl stack_from. rewrite IH.
    unfold tabulate3. rewrite map2_tabulate.
    apply tabulate_ext. intros i _. rewrite map2_tabulate.
    apply tabulate_ext. intros j _. apply map2_tabulate.
Qed.

Lemma terminal_prob_closed :
  (1 <= D)%nat ->
  terminal_prob F T D B sw sb ss (tabulate3 1 B F xv)
  = Some (tabulate3 (2 ^ D) B T (path_probability F D sw sb ss (xv 0%nat))).
Proof.
  intros HD. unfold terminal_prob.
  rewrite (mapM_Some _
             (fun d => tabulate3 (2 ^ D) B T
                         (branch_probability F sw sb ss (xv 0%nat) d))).
  2:{ intros d Hd. apply in_seq in Hd. apply build_split_prob_closed. lia. }
  run_bind.
  destruct D as [|D']; [lia|].
  set (n := (2 ^ S D')%nat).
  simpl seq. simpl map. rewrite <- seq_shift, map_map.
  rewrite <- (map_map (fun d => branch_probability F sw sb ss (xv 0%nat) (S d))
                      (tabulate3 n B T)).
  unfold tf_stack3. rewrite stack_from_tabulate3.
  unfold tf_reduce_prod3, map3, tabulate3. f_equal.
  rewrite map_tabulate. apply tabulate_ext. intros l _.
  rewrite map_tabulate. apply tabulate_ext. intros j _.
  rewrite map_tabulate. apply tabulate_ext. intros k _.
  unfold path_probability. f_equal.
  simpl seq. simpl map. f_equal.
  rewrite <- seq_shift, !map_map. reflexivity.
Qed.
End GraphFacts.

(** ** Sums over the leaves *)



Lemma Rsum_map_plus {X : Type} (f g : X -> R) (l : list X) :
  Rsum (map f l) + Rsum (map g l) = Rsum (map (fun x => f x + g x) l).
Proof.
  induction l as [|x l IH]; simpl; [lra | rewrite <- IH; lra].
Qed.

Section Paths.
(** [p d node] is any routing probability of the split at [node] of level
    [d]. *)
Variable p : nat -> nat -> R.







End Paths.


Lemma fold_left_add_rows (m : nat) (g : nat -> nat -> R) (l : list nat)
  (a : nat -> R) :
  fold_left (map2 Rplus) (map (fun i => tabulate m (g i)) l) (tabulate m a)
  = tabulate m (fun j => a j + Rsum (map (fun i => g i j) l)).
Proof.
  revert a. induction l as [|i l IH]; intros a; simpl.
  - apply tabulate_ext. intros j _. lra.
  - rewrite map2_tabulate, IH. apply tabulate_ext. intros j _. lra.
Qed.

Lemma tf_reduce_sum02_tabulate3 (n m p : nat) (h : nat -> nat -> nat -> R) :
  (1 <= n)%nat ->
  tf_reduce_sum02 (tabulate3 n m p h)
  = tabulate m (fun j =>
      Rsum (map (fun i => Rsum (map (fun k => h i j k) (seq 0 p))) (seq 0 n))).
Proof.
  intros Hn. destruct n as [|n]; [lia|].
  unfold tf_reduce_sum02, tabulate3.
  rewrite map_tabulate.
  rewrite (tabulate_ext (S n) _
             (fun i => tabulate m (fun j => Rsum (map (fun k => h i j k) (seq 0 p)))))
    by (intros i _; apply map_tabulate).
  rewrite tabulate_S.
  etransitivity;
    [exact (fold_left_add_rows m
              (fun i j => Rsum (map (fun k => h (S i) j k) (seq 0 p)))
              (seq 0 n)
              (fun j => Rsum (map (fun k => h 0%nat j k) (seq 0 p))))|].
  apply tabulate_ext. intros j _.
  simpl seq. simpl map. simpl Rsum. f_equal.
  rewrite <- seq_shift, map_map. reflexivity.
Qed.

Section PredictionFacts.
Variables F T D B : nat.
Variables sw sb ss : nat -> nat -> nat -> nat -> R.
Variables tw tb : nat -> nat -> nat -> R.

Lemma build_predictions_closed (xv : nat -> nat -> nat -> R) :
  (1 <= F)%nat -> (1 <= D)%nat ->
  _build_predictions F T D B sw sb ss tw tb (tabulate3 1 B F xv)
  = Some (tabulate B (mixture_prediction F T D sw sb ss tw tb (xv 0%nat))).
Proof.
  intros HF HD. unfold _build_predictions.
  rewrite terminal_prob_closed by assumption.
  run_bind.
  rewrite gather_root by exact HF. run_bind.
  unfold terminal_weight, terminal_bias, random_variable.
  rewrite tf_matmul_tabulate3 by exact HF.
  rewrite broadcast_row_tabulate3, broadcast_same_tabulate3.
  rewrite tf_reduce_sum02_tabulate3 by apply pow2_pos.
  reflexivity.
Qed.


(** C2. The output of the graph holds one number per batch item: the sum,
    over all [2 ^ max_depth] leaves and all trees, of the path probability of
    the leaf times its linear prediction
    [predictors . terminal_weight + terminal_bias]; the trees are added up. *)
Theorem predictions_are_leaf_mixture (x : Tensor3) :
  (1 <= F)%nat -> (1 <= D)%nat ->
  has_shape3 1 B F x = true ->
  _build_predictions F T D B sw sb ss tw tb x
  = Some (map (mixture_prediction F T D sw sb ss tw tb (get3 x 0%nat)) (seq 0 B)).
Proof.
  intros HF HD Hx.
  rewrite (has_shape3_tabulate3 1 B F x Hx) at 1.
  apply build_predictions_closed; assumption.
Qed.

(** C5, as the code has it: with [max_depth = 0] the list of per-level
    probabilities is empty, stacking it raises, and neither the path
    probabilities nor the predictions are built. *)
Theorem build_predictions_needs_a_level (x : Tensor3) :
  mapM (_build_split_prob F T 0 B sw sb ss x) (seq 0 0) = Some []
  /\ terminal_prob F T 0 B sw sb ss x = None
  /\ _build_predictions F T 0 B sw sb ss tw tb x = None.
Proof. repeat split. Qed.
End PredictionFacts.


(** The mixture theorem at one feature, one tree, depth one and a batch of
    one. *)
Lemma predictions_are_leaf_mixture_witness :
  _build_predictions 1 1 1 1 (fun _ _ _ _ => 0) (fun _ _ _ _ => 0)
                     (fun _ _ _ _ => 0) (fun _ _ _ => 3) (fun _ _ _ => 1) [[[2]]]
  = Some (map (mixture_prediction 1 1 1 (fun _ _ _ _ => 0) (fun _ _ _ _ => 0)
                                  (fun _ _ _ _ => 0) (fun _ _ _ => 3)
                                  (fun _ _ _ => 1) (get3 [[[2]]] 0%nat))
              (seq 0 1)).
Proof.
  apply (predictions_are_leaf_mixture 1 1 1 1
           (fun _ _ _ _ => 0) (fun _ _ _ _ => 0) (fun _ _ _ _ => 0)
           (fun _ _ _ => 3) (fun _ _ _ => 1) [[[2]]]).
  - lia.
  - lia.
  - reflexivity.
Defined.

(** C5 as stated fails: at depth 0, one feature 2 with terminal weight 3 and
    bias 1, the linear regression would give 7, and no prediction is built. *)
Lemma depth_zero_builds_no_prediction :
  _build_predictions 1 1 0 1 (fun _ _ _ _ => 0) (fun _ _ _ _ => 0)
                     (fun _ _ _ _ => 0) (fun _ _ _ => 3) (fun _ _ _ => 1) [[[2]]]
  = None
  /\ leaf_prediction 1 (fun _ _ _ => 3) (fun _ _ _ => 1)
                     (get3 [[[2]]] 0%nat) 0 0 0 = 7.
Proof.
  split; [reflexivity|].
  unfold leaf_prediction, get3. simpl. lra.
Qed.

(** The loss of the forest is a mean of squares, so [score] never takes the
    root of a negative number. *)
Lemma mean_squared_error_nonneg (pred resp : list R) :
  0 <= mean_squared_error pred resp.
Proof.
  unfold mean_squared_error.
  assert (Hs : 0 <= Rsum (map2 (fun p r => (p - r) * (p - r)) pred resp)).
  { apply Rsum_nonneg. unfold map2. apply Forall_map.
    apply Forall_forall. intros pr _. cbv beta.
    apply (Rle_0_sqr (fst pr - snd pr)). }
  destruct pred as [|p0 pred].
  - unfold map2. simpl. lra.
  - apply Rmult_le_pos; [exact Hs|].
    left. apply Rinv_0_lt_compat, lt_0_INR. simpl. lia.
Qed.

Lemma session_run_loss_nonneg (F T D B : nat)
  (sw sb ss : nat -> nat -> nat -> nat -> R) (tw tb : nat -> nat -> nat -> R)
  (input_dict : feed_dict R) (loss : R) :
  session_run_loss F T D B sw sb ss tw tb input_dict = Some loss -> 0 <= loss.
Proof.
  unfold session_run_loss.
  destruct (predictors_0 input_dict) as [| |d1 d2 blocks]; try discriminate.
  destruct (response_0 input_dict) as [resp| |]; try discriminate.
  destruct (_ && _); [|discriminate].
  destruct (_build_predictions F T D B sw sb ss tw tb blocks) as [pred|];
    [|discriminate].
  simpl. intros H. injection H as <-. apply mean_squared_error_nonneg.
Qed.

(** * Further properties of the feeder *)

Section FeederCursor.
Variable A : Type.
Context {RS : RandomState}.
Implicit Types self : TensorFlowData A.

(** A feeder with a full batch of [b] rows at its cursor. *)
Definition batch_ready (b : nat) self : Prop :=
  feeder_ok self /\ (batch_index self + b <= num_observations self)%nat.

Lemma update_keeps_ready (b : nat) self (g : rng) :
  batch_ready b self ->
  exists self' g',
    _update_batch_index b self g = Some (self', g')
    /\ batch_ready b self'
    /\ num_observations self' = num_observations self
    /\ num_predictors self' = num_predictors self
    /\ shuffle_each_epoch self' = shuffle_each_epoch self
    /\ Permutation (paired_rows self') (paired_rows self).
Proof.
  intros [Hok Hfit].
  destruct (Nat.le_gt_cases (batch_index self + b + b)
                            (num_observations self)) as [H|H].
  - rewrite update_advance by exact H.
    do 2 eexists. split; [reflexivity|].
    split; [split; [apply feeder_ok_moved, Hok | simpl; lia]|].
    repeat split; reflexivity.
  - rewrite update_wrap by assumption.
    destruct (shuffle_each_epoch self) eqn:Esh.
    + pose proof (np_random_permutation_spec (num_observations self) g) as HP.
      do 2 eexists. split; [reflexivity|].
      split; [split|].
      * apply feeder_ok_reordered; [apply feeder_ok_moved, Hok | exact HP].
      * simpl. lia.
      * repeat split; try reflexivity; try (simpl; congruence).
        apply (paired_rows_reordered A (moved 0 true self));
          [apply feeder_ok_moved, Hok | exact HP].
    + do 2 eexists. split; [reflexivity|].
      split; [split; [apply feeder_ok_moved, Hok | simpl; lia]|].
      repeat split; try reflexivity. simpl. congruence.
Qed.

(** A call of [get_batch] on a ready feeder serves the batch at the cursor
    and leaves the feeder ready for the next call. *)
Lemma get_batch_ready (b : nat) self (g : rng) :
  batch_ready b self ->
  exists self' g',
    get_batch b self g = Some (batch_at b self, self', g')
    /\ batch_ready b self'
    /\ num_observations self' = num_observations self
    /\ num_predictors self' = num_predictors self
    /\ shuffle_each_epoch self' = shuffle_each_epoch self
    /\ Permutation (paired_rows self') (paired_rows self).
Proof.
  intros Hready. destruct (update_keeps_ready b self g Hready)
    as (self' & g' & Hupd & Hrest).
  destruct Hready as [Hok Hfit].
  exists self', g'. split; [|exact Hrest].
  rewrite get_batch_extract by assumption. rewrite Hupd. reflexivity.
Qed.

(** [get_batch] never serves a short batch: it raises exactly when fewer
    than [batch_size] rows are left at the cursor. *)
Theorem get_batch_raises_iff_short (batch_size : nat) self (g : rng) :
  feeder_ok self ->
  (1 <= batch_size)%nat ->
  get_batch batch_size self g = None
  <-> (num_observations self < batch_index self + batch_size)%nat.
Proof.
  intros Hok Hb. split.
  - intros Hnone.
    destruct (Nat.le_gt_cases (batch_index self + batch_size)
                              (num_observations self)) as [H|H]; [|exact H].
    destruct (get_batch_ready batch_size self g (conj Hok H))
      as (self' & g' & Hget & _).
    rewrite Hget in Hnone. discriminate Hnone.
  - intros Hshort. unfold get_batch. unfold feeder_ok in Hok.
    destruct (predictors self) as [|f prows|]; try tauto.
    destruct (response self) as [|c rrows|]; try tauto.
    destruct Hok as (Hf & Hc & Hp & Hr & HFp & HFr).
    simpl index_rows. run_bind.
    destruct (reshape3 _ _ _ _) as [p|]; [|reflexivity].
    run_bind. unfold reshape1. simpl ravel.
    rewrite (length_concat_uniform 1) by (apply Forall_slice, HFr).
    unfold slice. rewrite length_firstn, length_skipn.
    destruct (Nat.eqb_spec
                (Nat.min (batch_index self + batch_size - batch_index self)
                         (length rrows - batch_index self) * 1) batch_size)
      as [E|E]; [lia | reflexivity].
Qed.
End FeederCursor.

Lemma sample_feeder_ready : batch_ready nat 2%nat (sample_feeder false).
Proof. split; [apply sample_feeder_ok | simpl; lia]. Qed.

(** At the sample feeder a batch of six rows is too long and one of two rows
    fits. *)
Lemma get_batch_raises_iff_short_witness :
  get_batch (RS := rotating_random) 6 (sample_feeder false) 0%nat = None
  <-> (num_observations (sample_feeder false)
       < batch_index (sample_feeder false) + 6)%nat.
Proof.
  apply (@get_batch_raises_iff_short nat rotating_random 6
           (sample_feeder false) 0%nat (sample_feeder_ok false)).
  lia.
Defined.

(** * Further properties of the training steps *)

Section TrainSteps.
Context {RS : RandomState}.
Variable model : Type.
Variable batch_size : nat.
Variable dropout_rate : R.
Variable session_run_optimizer : model -> feed_dict R -> option model.

Lemma train_steps_S (n : nat) (m : model) (td : TensorFlowData R) (g : rng) :
  _train_steps batch_size dropout_rate session_run_optimizer (S n) m td g
  = '(b, td1, g1) <- get_batch batch_size td g ;;
    m1 <- session_run_optimizer m (with_dropout dropout_rate b) ;;
    _train_steps batch_size dropout_rate session_run_optimizer n m1 td1 g1.
Proof. reflexivity. Qed.

End TrainSteps.


Section TrainSchedule.
Context {RS : RandomState}.
Variable model : Type.
Variable batch_size : nat.
Variable dropout_rate : R.
Variable session_run_optimizer : model -> feed_dict R -> option model.

Lemma full_batches_fit (n j : nat) :
  (1 <= batch_size)%nat -> (j < n / batch_size)%nat ->
  (j * batch_size + batch_size <= n)%nat.
Proof.
  intros Hb Hj.
  pose proof (Nat.Div0.mul_div_le n batch_size) as Hle.
  assert ((j + 1) * batch_size <= n / batch_size * batch_size)%nat
    by (apply Nat.mul_le_mono_r; lia).
  lia.
Qed.

Lemma last_batch_wraps (n j : nat) :
  (1 <= batch_size)%nat -> (S j = n / batch_size)%nat ->
  (n < j * batch_size + batch_size + batch_size)%nat.
Proof.
  intros Hb Hj.
  pose proof (Nat.mul_succ_div_gt n batch_size) as Hgt.
  rewrite <- Hj in Hgt. lia.
Qed.

(** Without shuffling the steps walk through the batches at offsets
    [0, B, ..., (k - 1) B] again and again. *)
Lemma train_steps_from (td : TensorFlowData R) (g : rng) :
  feeder_ok td ->
  shuffle_each_epoch td = false ->
  (1 <= batch_size)%nat ->
  forall (n j : nat) (m : model) (e : bool),
    (j < num_observations td / batch_size)%nat ->
    _train_steps batch_size dropout_rate session_run_optimizer n m
                 (moved (j * batch_size) e td) g
    = m' <- foldM session_run_optimizer
              (map (fun i =>
                      with_dropout dropout_rate
                        (batch_at batch_size
                           (moved ((j + i) mod (num_observations td / batch_size)
                                   * batch_size) false td)))
                   (seq 0 n)) m ;;
      Some (m',
            moved ((j + n) mod (num_observations td / batch_size) * batch_size)
                  (e || (num_observations td / batch_size <=? j + n)%nat) td,
            g).
Proof.
  intros Hok Hsh Hb. set (k := (num_observations td / batch_size)%nat).
  induction n as [|n IH]; intros j m e Hj.
  - simpl. rewrite Nat.add_0_r, Nat.mod_small by exact Hj.
    destruct (Nat.leb_spec k j); [lia|]. rewrite orb_false_r. reflexivity.
  - rewrite train_steps_S.
    assert (Hfit := full_batches_fit (num_observations td) j Hb Hj).
    rewrite get_batch_extract
      by (try apply feeder_ok_moved; simpl; assumption).
    simpl seq. simpl map. rewrite Nat.add_0_r, (Nat.mod_small j k) by exact Hj.
    change (batch_at batch_size (moved (j * batch_size) e td))
      with (batch_at batch_size (moved (j * batch_size) false td)).
    destruct (Nat.eq_dec (S j) k) as [Hlast|Hmore].
    + rewrite update_wrap;
        [|apply feeder_ok_moved, Hok
         |simpl; apply last_batch_wraps; assumption].
      simpl shuffle_each_epoch. rewrite Hsh. run_bind. simpl foldM.
      destruct (session_run_optimizer m _) as [m1|]; [|reflexivity].
      run_bind.
      change (moved 0 true (moved (j * batch_size) e td))
        with (moved (0 * batch_size) true td).
      rewrite (IH 0%nat m1 true) by lia.
      rewrite <- seq_shift, map_map.
      replace (j + S n)%nat with (n + 1 * k)%nat by lia.
      rewrite Nat.Div0.mod_add.
      destruct (Nat.leb_spec k (n + 1 * k)); [|lia].
      rewrite orb_true_r. run_bind.
      rewrite (map_ext
                 (fun x => with_dropout dropout_rate
                             (batch_at batch_size
                                (moved ((j + S x) mod k * batch_size) false td)))
                 (fun i => with_dropout dropout_rate
                             (batch_at batch_size
                                (moved ((0 + i) mod k * batch_size) false td)))).
      * reflexivity.
      * intros i. replace (j + S i)%nat with (i + 1 * k)%nat by lia.
        rewrite Nat.Div0.mod_add. reflexivity.
    + assert (Hnext : (S j < k)%nat) by lia.
      apply (full_batches_fit (num_observations td) (S j) Hb) in Hnext.
      simpl in Hnext.
      rewrite update_advance by (simpl; lia).
      run_bind. simpl foldM.
      destruct (session_run_optimizer m _) as [m1|]; [|reflexivity].
      run_bind.
      change (moved (batch_index (moved (j * batch_size) e td) + batch_size)
                    (reached_end (moved (j * batch_size) e td))
                    (moved (j * batch_size) e td))
        with (moved (j * batch_size + batch_size) e td).
      replace (j * batch_size + batch_size)%nat with (S j * batch_size)%nat
        by (simpl; lia).
      rewrite (IH (S j) m1 e) by lia.
      rewrite <- seq_shift, map_map.
      replace (S j + n)%nat with (j + S n)%nat by lia. run_bind.
      rewrite (map_ext
                 (fun x => with_dropout dropout_rate
                             (batch_at batch_size
                                (moved ((j + S x) mod k * batch_size) false td)))
                 (fun i => with_dropout dropout_rate
                             (batch_at batch_size
                                (moved ((S j + i) mod k * batch_size) false td)))).
      * reflexivity.
      * intros i. replace (S j + i)%nat with (j + S i)%nat by lia. reflexivity.
Qed.
End TrainSchedule.

Section TrainCycle.
Context {RS : RandomState}.
Variable model : Type.
Variable batch_size : nat.
Variable dropout_rate : R.
Variable session_run_optimizer : model -> feed_dict R -> option model.

(** With [shuffle_each_epoch] off, step [i] of [_train_steps] is fed the
    batch at offset [(i mod k) * batch_size], [k = N / batch_size]: the same
    [k] batches in the same order, epoch after epoch, the random state
    untouched.  Every batch ends at or before row [k * batch_size], so the
    last [N mod batch_size] rows are never trained on. *)
Theorem train_steps_cycle_without_shuffle
  (n : nat) (m : model) (td : TensorFlowData R) (g : rng) :
  feeder_ok td ->
  shuffle_each_epoch td = false ->
  batch_index td = 0%nat ->
  (1 <= batch_size <= num_observations td)%nat ->
  let k := (num_observations td / batch_size)%nat in
  let offset i := (i mod k * batch_size)%nat in
  _train_steps batch_size dropout_rate session_run_optimizer n m td g
  = (m' <- foldM session_run_optimizer
             (map (fun i => with_dropout dropout_rate
                              (batch_at batch_size (moved (offset i) false td)))
                  (seq 0 n)) m ;;
     Some (m', moved (offset n) (reached_end td || (k <=? n)%nat) td, g))
  /\ forall i,
       batch_rows (batch_at batch_size (moved (offset i) false td))
       = slice (offset i) (offset i + batch_size) (rows_of (predictors td))
       /\ (offset i + batch_size <= k * batch_size)%nat.
Proof.
  intros Hok Hsh Hidx [Hb HbN] k offset.
  assert (Hk : (1 <= k)%nat) by (apply Nat.div_le_lower_bound; lia).
  split.
  - assert (Htd : td = moved (0 * batch_size) (reached_end td) td).
    { destruct td; simpl in *; subst; reflexivity. }
    rewrite Htd at 1.
    rewrite (train_steps_from model batch_size dropout_rate
               session_run_optimizer td g Hok Hsh Hb n 0%nat m (reached_end td))
      by (fold k; lia).
    reflexivity.
  - intros i. split.
    + unfold batch_rows, batch_at. simpl. apply app_nil_r.
    + unfold offset.
      assert (i mod k < k)%nat by (apply Nat.mod_upper_bound; lia).
      assert ((i mod k + 1) * batch_size <= k * batch_size)%nat
        by (apply Nat.mul_le_mono_r; lia).
      lia.
Qed.
End TrainCycle.

(** Three recorded steps over six rows with batches of four: one batch per
    epoch, the last two rows never fed. *)
Lemma train_steps_cycle_without_shuffle_witness :
  _train_steps (RS := rotating_random) 4 (1 / 2)
               (fun m fd => Some (m ++ [fd])) 3 [] (sample_data false) 0%nat
  = (m' <- foldM (fun m fd => Some (m ++ [fd]))
             (map (fun i => with_dropout (1 / 2)
                              (batch_at 4 (moved (i mod (6 / 4) * 4) false
                                                 (sample_data false))))
                  (seq 0 3)) [] ;;
     Some (m', moved (3 mod (6 / 4) * 4)
                     (reached_end (sample_data false) || (6 / 4 <=? 3)%nat)
                     (sample_data false), 0%nat))
  /\ forall i,
       batch_rows (batch_at 4 (moved (i mod (6 / 4) * 4) false (sample_data false)))
       = slice (i mod (6 / 4) * 4) (i mod (6 / 4) * 4 + 4)
               (rows_of (predictors (sample_data false)))
       /\ (i mod (6 / 4) * 4 + 4 <= 6 / 4 * 4)%nat.
Proof.
  apply (@train_steps_cycle_without_shuffle rotating_random
           (list (feed_dict R)) 4 (1 / 2) (fun m fd => Some (m ++ [fd]))
           3 [] (sample_data false) 0%nat).
  - unfold feeder_ok. simpl. repeat split; repeat constructor.
  - reflexivity.
  - reflexivity.
  - simpl. lia.
Defined.

(** * Further properties of scoring and training *)

Section EpochExact.
Variable A : Type.
Context {RS : RandomState}.
Implicit Types self : TensorFlowData A.

(** The feeder and the random state at the end of an epoch. *)
Definition epoch_end self (g : rng) : TensorFlowData A * rng :=
  if shuffle_each_epoch self
  then let draw := np_random_permutation (num_observations self) g in
       (reordered (fst draw) (moved 0 false self), snd draw)
  else (moved 0 false self, g).

Lemma map_seq_S {X : Type} (f : nat -> X) (k : nat) :
  map f (seq 0 (S k)) = f 0%nat :: map (fun j => f (S j)) (seq 0 k).
Proof. simpl. rewrite <- seq_shift, map_map. reflexivity. Qed.

(** An epoch in full: its batches one by one, and the state it ends in. *)
Lemma run_epoch_exact (b : nat) (Hb : (1 <= b)%nat) :
  forall (fuel : nat) self (g : rng),
    feeder_ok self ->
    reached_end self = false ->
    (batch_index self + b <= num_observations self)%nat ->
    ((num_observations self - batch_index self) / b <= fuel)%nat ->
    run_epoch fuel b self g
    = Some (map (fun j => batch_at b (moved (batch_index self + j * b) false self))
                (seq 0 ((num_observations self - batch_index self) / b)),
            fst (epoch_end self g), snd (epoch_end self g)).
Proof.
  induction fuel as [|fuel IH]; intros self g Hok Hflag Hfit Hfuel.
  - exfalso.
    assert (1 <= (num_observations self - batch_index self) / b)%nat
      by (apply Nat.div_le_lower_bound; lia).
    lia.
  - rewrite run_epoch_S, get_batch_extract by assumption.
    assert (Hfirst : batch_at b self
                     = batch_at b (moved (batch_index self + 0 * b) false self)).
    { unfold batch_at. simpl. rewrite Nat.add_0_r. reflexivity. }
    destruct (Nat.le_gt_cases (batch_index self + b + b)
                              (num_observations self)) as [H|H].
    + rewrite update_advance by exact H. rewrite Hflag. run_bind.
      rewrite has_reached_end_moved.
      rewrite (IH (moved (batch_index self + b) false self) g);
        [|apply feeder_ok_moved, Hok|reflexivity|simpl; exact H
         |simpl; rewrite (batches_left_step _ _ _ Hb H) in Hfuel; lia].
      run_bind. simpl num_observations. simpl batch_index.
      rewrite (batches_left_step _ _ _ Hb H).
      rewrite map_seq_S, <- Hfirst.
      f_equal. f_equal. f_equal. f_equal.
      apply map_ext. intros j. unfold batch_at. simpl.
      replace (batch_index self + b + j * b)%nat
        with (batch_index self + (b + j * b))%nat by lia.
      reflexivity.
    + rewrite update_wrap by assumption.
      rewrite (batches_left_last _ _ _ Hb Hfit H).
      rewrite map_seq_S, <- Hfirst. simpl map.
      unfold epoch_end.
      destruct (shuffle_each_epoch self); cbv beta iota zeta delta [bind].
      * rewrite has_reached_end_reordered. reflexivity.
      * rewrite has_reached_end_moved. reflexivity.
Qed.

Lemma epoch_end_ready (b : nat) self (g : rng) :
  feeder_ok self -> (b <= num_observations self)%nat ->
  batch_ready A b (fst (epoch_end self g))
  /\ batch_index (fst (epoch_end self g)) = 0%nat
  /\ reached_end (fst (epoch_end self g)) = false
  /\ num_observations (fst (epoch_end self g)) = num_observations self
  /\ num_predictors (fst (epoch_end self g)) = num_predictors self
  /\ shuffle_each_epoch (fst (epoch_end self g)) = shuffle_each_epoch self
  /\ Permutation (paired_rows (fst (epoch_end self g))) (paired_rows self).
Proof.
  intros Hok Hb. unfold epoch_end.
  destruct (shuffle_each_epoch self) eqn:Esh; cbv zeta; simpl fst.
  - pose proof (np_random_permutation_spec (num_observations self) g) as HP.
    split; [split|].
    + apply feeder_ok_reordered; [apply feeder_ok_moved, Hok | exact HP].
    + simpl. exact Hb.
    + repeat split; try reflexivity; try (simpl; congruence).
      apply (paired_rows_reordered A (moved 0 false self));
        [apply feeder_ok_moved, Hok | exact HP].
  - split; [split; [apply feeder_ok_moved, Hok | simpl; exact Hb]|].
    repeat split; try reflexivity. simpl. congruence.
Qed.
End EpochExact.

Lemma mapM_total {X Y : Type} (f : X -> option Y) (P : Y -> Prop) (l : list X) :
  (forall x, In x l -> exists y, f x = Some y /\ P y) ->
  exists ys, mapM f l = Some ys /\ Forall P ys /\ length ys = length l.
Proof.
  induction l as [|x l IH]; intros Hf.
  - exists []. repeat split. constructor.
  - destruct (Hf x (or_introl eq_refl)) as (y & Hy & HPy).
    destruct IH as (ys & Hys & HP & Hlen);
      [intros z Hz; apply Hf; right; exact Hz|].
    exists (y :: ys). simpl. rewrite Hy, Hys. simpl.
    repeat split; [constructor; assumption | congruence].
Qed.

Section ScoreOutcome.
Context {RS : RandomState}.
Variable batch_size : nat.
Variable session_run_loss : feed_dict R -> option R.

(** The loss is defined, and not negative, on the batches given, fed with
    dropout 1.0. *)
Definition loss_defined_on (bs : list (feed_dict R)) : Prop :=
  forall b, In b bs ->
    exists l, session_run_loss (with_dropout 1 b) = Some l /\ 0 <= l.

Lemma score_outcome (data : TensorFlowData R) (g : rng) (fuel : nat) :
  loss_defined_on (epoch_batches batch_size data) ->
  feeder_ok data ->
  reached_end data = false ->
  (1 <= batch_size)%nat ->
  (batch_index data + batch_size <= num_observations data)%nat ->
  ((num_observations data - batch_index data) / batch_size < fuel)%nat ->
  exists v,
    score batch_size session_run_loss fuel data g
    = Some (Num v, fst (epoch_end R data g), snd (epoch_end R data g))
    /\ 0 <= v.
Proof.
  intros Hloss Hok Hflag Hb Hfit Hfuel.
  pose proof (run_epoch_exact R batch_size Hb _ data g Hok Hflag Hfit (le_n _))
    as Hrun.
  fold (epoch_batches batch_size data) in Hrun.
  unfold score.
  rewrite (score_loop_run_epoch batch_size session_run_loss _ fuel data g []
             _ _ _ Hfuel Hflag Hrun).
  destruct (mapM_total (fun b => session_run_loss (with_dropout 1 b))
              (fun l => 0 <= l) (epoch_batches batch_size data) Hloss)
    as (losses & Hlosses & Hpos & Hlen).
  rewrite Hlosses. run_bind. simpl app. rewrite concat_singletons.
  unfold epoch_batches in Hlen. rewrite length_map, length_seq in Hlen.
  assert (Hk : (1 <= (num_observations data - batch_index data) / batch_size)%nat)
    by (apply Nat.div_le_lower_bound; lia).
  rewrite root_mean_defined; [|intros ->; simpl in Hlen; lia|exact Hpos].
  run_bind. eexists. split; [reflexivity|]. apply sqrt_pos.
Qed.

(** [score] does not raise when the loss is defined, and not negative, on
    the batches of the epoch it runs: it returns a number that is not
    negative and hands the feeder back at the start of an epoch, the flag
    clear, the rows still paired.  With [shuffle_each_epoch] off and the
    cursor at 0 it hands back the very feeder and random state it was
    given. *)
Theorem score_leaves_feeder_at_epoch_start
  (data : TensorFlowData R) (g : rng) (fuel : nat) :
  loss_defined_on (epoch_batches batch_size data) ->
  feeder_ok data ->
  reached_end data = false ->
  (1 <= batch_size)%nat ->
  (batch_index data + batch_size <= num_observations data)%nat ->
  ((num_observations data - batch_index data) / batch_size < fuel)%nat ->
  exists v data' g',
    score batch_size session_run_loss fuel data g = Some (Num v, data', g')
    /\ 0 <= v
    /\ batch_index data' = 0%nat
    /\ reached_end data' = false
    /\ batch_ready R batch_size data'
    /\ Permutation (paired_rows data') (paired_rows data)
    /\ (shuffle_each_epoch data = false -> batch_index data = 0%nat ->
        data' = data /\ g' = g).
Proof.
  intros Hloss Hok Hflag Hb Hfit Hfuel.
  destruct (score_outcome data g fuel Hloss Hok Hflag Hb Hfit Hfuel)
    as (v & Hscore & Hv).
  destruct (epoch_end_ready R batch_size data g Hok)
    as (Hready & Hidx & Hend & _ & _ & _ & Hperm); [lia|].
  exists v, (fst (epoch_end R data g)), (snd (epoch_end R data g)).
  repeat (split; [assumption|]).
  intros Hsh Hzero. unfold epoch_end. rewrite Hsh. simpl.
  split; [|reflexivity].
  destruct data; simpl in *; subst; reflexivity.
Qed.
End ScoreOutcome.

Section TrainRounds.
Context {RS : RandomState}.
Variable model : Type.
Variable batch_size : nat.
Variable dropout_rate : R.
Variable session_run_optimizer : model -> feed_dict R -> option model.
Variable session_run_loss : model -> feed_dict R -> option R.

(** The rounds of the [while] loop still to run from [current_step]. *)
Definition rounds_left (training_steps print_every current_step : nat) : nat :=
  ((training_steps - current_step + (print_every - 1)) / print_every)%nat.

Lemma rounds_left_step (s p c : nat) :
  (1 <= p)%nat -> (c < s)%nat ->
  rounds_left s p c = S (rounds_left s p (c + p)).
Proof.
  intros Hp Hc. unfold rounds_left.
  replace (s - c + (p - 1))%nat with ((s - c - 1) + 1 * p)%nat by lia.
  rewrite Nat.div_add by lia.
  destruct (Nat.le_gt_cases p (s - c)) as [H|H].
  - replace (s - (c + p) + (p - 1))%nat with (s - c - 1)%nat by lia. lia.
  - replace (s - (c + p) + (p - 1))%nat with (p - 1)%nat by lia.
    rewrite !Nat.div_small by lia. reflexivity.
Qed.

Lemma rounds_left_done (s p c : nat) :
  (1 <= p)%nat -> (s <= c)%nat -> rounds_left s p c = 0%nat.
Proof.
  intros Hp Hc. unfold rounds_left.
  replace (s - c + (p - 1))%nat with (p - 1)%nat by lia.
  apply Nat.div_small. lia.
Qed.

Lemma train_loop_S (fuel score_fuel s p c : nat) (m : model) (log : fit_log)
  (td vd : TensorFlowData R) (g : rng) :
  train_loop batch_size dropout_rate session_run_optimizer session_run_loss
             (S fuel) score_fuel s p c m log td vd g
  = if (c <? s)%nat then
      '(m1, td1, g1) <-
        _train_steps batch_size dropout_rate session_run_optimizer p m td g ;;
      '(current_score, vd1, g2) <-
        score batch_size (session_run_loss m1) score_fuel vd g1 ;;
      train_loop batch_size dropout_rate session_run_optimizer session_run_loss
                 fuel score_fuel s p (c + p) m1
                 {| batch_number := batch_number log ++ [(c + p)%nat];
                    validation_score := validation_score log ++ [current_score] |}
                 td1 vd1 g2
    else Some (m, log, td, vd, g).
Proof. reflexivity. Qed.
End TrainRounds.

Section TrainCadence.
Context {RS : RandomState}.
Variable model : Type.
Variable batch_size : nat.
Variable dropout_rate : R.
Variable session_run_optimizer : model -> feed_dict R -> option model.
Variable session_run_loss : model -> feed_dict R -> option R.

(** With [print_every = 0] and steps to train, [train] never returns: the
    step count stays at 0 and the loop scores for ever (or a scoring
    raises); no amount of fuel yields a result. *)
Theorem train_with_zero_cadence_never_returns
  (fuel score_fuel training_steps : nat)
  (m : model) (log : fit_log) (td vd : TensorFlowData R) (g : rng) :
  (1 <= training_steps)%nat ->
  train batch_size dropout_rate session_run_optimizer session_run_loss
        fuel score_fuel m log td vd training_steps 0 g
  = None.
Proof.
  intros Hs. unfold train. revert m log td vd g.
  induction fuel as [|fuel IH]; intros m log td vd g; [reflexivity|].
  rewrite train_loop_S.
  destruct (Nat.ltb_spec 0 training_steps) as [_|H]; [|lia].
  simpl _train_steps. run_bind.
  destruct (score batch_size (session_run_loss m) score_fuel vd g)
    as [[[current_score vd1] g2]|]; [|reflexivity].
  run_bind. apply IH.
Qed.
End TrainCadence.

(** Ten units of fuel on the sample data with a cadence of 0. *)
Lemma train_with_zero_cadence_never_returns_witness :
  train (RS := rotating_random) 2 (1 / 2)
        (fun (m : nat) _ => Some (S m)) (fun _ _ => Some 4)
        10 4 0%nat {| batch_number := []; validation_score := [] |}
        (sample_data false) (sample_data false) 5 0 0%nat
  = None.
Proof.
  apply (@train_with_zero_cadence_never_returns rotating_random nat 2 (1 / 2)
           (fun (m : nat) _ => Some (S m)) (fun _ _ => Some 4)).
  lia.
Defined.

(** * Further properties of the prediction graph *)


Lemma Rprod_unit_interval (l : list R) :
  l <> [] -> Forall (fun x => 0 < x < 1) l -> 0 < Rprod l < 1.
Proof.
  intros Hne H. induction H as [|x l Hx Hl IH]; [congruence|].
  simpl. destruct l as [|y l].
  - simpl. lra.
  - assert (Hp : 0 < Rprod (y :: l) < 1) by (apply IH; discriminate).
    split; [apply Rmult_lt_0_compat; lra | nra].
Qed.

Lemma Rsum_swap {X Y : Type} (a : X -> Y -> R) (l1 : list X) (l2 : list Y) :
  Rsum (map (fun i => Rsum (map (fun j => a i j) l2)) l1)
  = Rsum (map (fun j => Rsum (map (fun i => a i j) l1)) l2).
Proof.
  induction l1 as [|i l1 IH]; simpl.
  - induction l2 as [|j l2 IH2]; simpl; [reflexivity | rewrite <- IH2; lra].
  - rewrite IH. apply Rsum_map_plus.
Qed.


Section ForestFacts.
Variables F T D B : nat.
Variables sw sb ss : nat -> nat -> nat -> nat -> R.
Variables tw tb : nat -> nat -> nat -> R.


End ForestFacts.

(** The parameters of one tree of the forest, as a forest of that tree
    alone. *)
Definition only_tree {X : Type} (tree : nat) (v : X -> nat -> nat -> nat -> R)
  : X -> nat -> nat -> nat -> R :=
  fun d node f _ => v d node f tree.

Definition only_tree_leaves (tree : nat) (v : nat -> nat -> nat -> R)
  : nat -> nat -> nat -> R :=
  fun leaf f _ => v leaf f tree.

Section ForestSum.
Variables F T D B : nat.
Variables sw sb ss : nat -> nat -> nat -> nat -> R.
Variables tw tb : nat -> nat -> nat -> R.

(** The forest predicts the sum of what its trees predict one by one: for
    each batch item, the output of the forest of [T] trees is the sum over
    the trees of the output of the forest made of that tree alone. *)
Theorem forest_is_sum_of_trees (x : Tensor3) :
  (1 <= F)%nat -> (1 <= D)%nat ->
  has_shape3 1 B F x = true ->
  exists per_tree : nat -> list R,
    (forall tree,
        _build_predictions F 1 D B (only_tree tree sw) (only_tree tree sb)
                           (only_tree tree ss) (only_tree_leaves tree tw)
                           (only_tree_leaves tree tb) x
        = Some (per_tree tree)
        /\ length (per_tree tree) = B)
    /\ _build_predictions F T D B sw sb ss tw tb x
       = Some (map (fun item =>
                      Rsum (map (fun tree => nth item (per_tree tree) 0)
                                (seq 0 T)))
                   (seq 0 B)).
Proof.
  intros HF HD Hx.
  exists (fun tree =>
            tabulate B (mixture_prediction F 1 D (only_tree tree sw)
                          (only_tree tree sb) (only_tree tree ss)
                          (only_tree_leaves tree tw) (only_tree_leaves tree tb)
                          (get3 x 0%nat))).
  split.
  - intros tree. split; [|apply length_tabulate].
    rewrite (has_shape3_tabulate3 1 B F x Hx) at 1.
    apply build_predictions_closed; assumption.
  - rewrite (has_shape3_tabulate3 1 B F x Hx) at 1.
    rewrite build_predictions_closed by assumption.
    unfold tabulate at 1. f_equal. apply map_ext_in. intros item Hitem.
    apply in_seq in Hitem.
    rewrite (map_ext _
               (fun tree =>
                  mixture_prediction F 1 D (only_tree tree sw)
                    (only_tree tree sb) (only_tree tree ss)
                    (only_tree_leaves tree tw) (only_tree_leaves tree tb)
                    (get3 x 0%nat) item))
      by (intros tree; apply nth_tabulate; lia).
    unfold mixture_prediction.
    rewrite (Rsum_swap
               (fun leaf tree =>
                  path_probability F D sw sb ss (get3 x 0%nat) leaf item tree
                  * leaf_prediction F tw tb (get3 x 0%nat) leaf item tree)).
    f_equal. apply map_ext. intros tree.
    f_equal. apply map_ext. intros leaf.
    simpl. unfold path_probability, branch_probability, split_probability,
      leaf_prediction, only_tree, only_tree_leaves. lra.
Qed.
End ForestSum.


(** A forest of two trees of depth one over one feature. *)
Lemma forest_is_sum_of_trees_witness :
  exists per_tree : nat -> list R,
    (forall tree,
        _build_predictions 1 1 1 1
          (only_tree tree (fun _ _ _ t => INR t))
          (only_tree tree (fun _ _ _ _ => 0))
          (only_tree tree (fun _ _ _ _ => 0))
          (only_tree_leaves tree (fun _ _ t => INR t))
          (only_tree_leaves tree (fun _ _ _ => 1)) [[[2]]]
        = Some (per_tree tree)
        /\ length (per_tree tree) = 1%nat)
    /\ _build_predictions 1 2 1 1 (fun _ _ _ t => INR t) (fun _ _ _ _ => 0)
                          (fun _ _ _ _ => 0) (fun _ _ t => INR t)
                          (fun _ _ _ => 1) [[[2]]]
       = Some (map (fun item =>
                      Rsum (map (fun tree => nth item (per_tree tree) 0)
                                (seq 0 2)))
                   (seq 0 1)).
Proof.
  apply (forest_is_sum_of_trees 1 2 1 1
           (fun _ _ _ t => INR t) (fun _ _ _ _ => 0) (fun _ _ _ _ => 0)
           (fun _ _ t => INR t) (fun _ _ _ => 1) [[[2]]]).
  - lia.
  - lia.
  - reflexivity.
Defined.

(** * The loss of the forest *)

Lemma has_shape3_single_plane (m p : nat) (rows : list (list R)) :
  length rows = m -> Forall (fun r => length r = p) rows ->
  has_shape3 1 m p [rows] = true.
Proof.
  intros Hm Hrows. unfold has_shape3. simpl.
  rewrite Hm, Nat.eqb_refl. simpl. rewrite andb_true_r.
  apply forallb_forall. intros r Hr.
  rewrite Forall_forall in Hrows. apply Nat.eqb_eq, Hrows, Hr.
Qed.

Lemma mapM_map {X Y Z : Type} (f : Y -> option Z) (h : X -> Y) (l : list X) :
  mapM f (map h l) = mapM (fun x => f (h x)) l.
Proof.
  induction l as [|x l IH]; simpl; [reflexivity | rewrite IH; reflexivity].
Qed.

Section ForestLoss.
Variables F T D B : nat.
Variables sw sb ss : nat -> nat -> nat -> nat -> R.
Variables tw tb : nat -> nat -> nat -> R.
Hypothesis F_pos : (1 <= F)%nat.
Hypothesis D_pos : (1 <= D)%nat.

(** The loss of the forest is defined, and not negative, on every feed that
    fits the placeholders. *)
Lemma forest_loss_on_fitting_feeds (fd : feed_dict R) :
  feed_fits B F fd = true ->
  exists l, session_run_loss F T D B sw sb ss tw tb fd = Some l /\ 0 <= l.
Proof.
  unfold feed_fits, session_run_loss.
  destruct (predictors_0 fd) as [| |d1 d2 blocks]; try discriminate.
  destruct (response_0 fd) as [resp| |]; try discriminate.
  intros Hfits. rewrite Hfits.
  apply andb_prop in Hfits. destruct Hfits as [Hfits _].
  apply andb_prop in Hfits. destruct Hfits as [_ Hshape].
  rewrite (has_shape3_tabulate3 1 B F blocks Hshape).
  rewrite build_predictions_closed by assumption.
  run_bind. eexists. split; [reflexivity|]. apply mean_squared_error_nonneg.
Qed.
End ForestLoss.

(** The batch at the cursor fits placeholders of the feeder's own feature
    count. *)
Lemma batch_at_fits (b : nat) (data : TensorFlowData R) :
  feeder_ok data ->
  (batch_index data + b <= num_observations data)%nat ->
  feed_fits b (num_predictors data) (batch_at b data) = true.
Proof.
  intros Hok Hfit. unfold feeder_ok in Hok. unfold feed_fits, batch_at. simpl.
  destruct (predictors data) as [|f prows|]; try tauto.
  destruct (response data) as [|c rrows|]; try tauto.
  destruct Hok as (Hf & Hc & Hp & Hr & HFp & HFr). simpl rows_of. subst f.
  rewrite !Nat.eqb_refl.
  rewrite has_shape3_single_plane;
    [|rewrite length_slice; lia|apply Forall_slice; exact HFp].
  rewrite (length_concat_uniform 1) by (apply Forall_slice, HFr).
  rewrite length_slice by lia.
  replace ((batch_index data + b - batch_index data) * 1)%nat with b by lia.
  rewrite Nat.eqb_refl. reflexivity.
Qed.

Lemma feed_fits_with_dropout (b f : nat) (rate : R) (fd : feed_dict R) :
  feed_fits b f (with_dropout rate fd) = feed_fits b f fd.
Proof. reflexivity. Qed.

(** Every batch of an epoch fits. *)
Lemma epoch_batches_fit (b : nat) (data : TensorFlowData R) (fd : feed_dict R) :
  (1 <= b)%nat -> feeder_ok data ->
  In fd (epoch_batches b data) ->
  feed_fits b (num_predictors data) fd = true.
Proof.
  intros Hb Hok Hin. unfold epoch_batches in Hin.
  apply in_map_iff in Hin. destruct Hin as (j & <- & Hj).
  apply in_seq in Hj.
  pose proof (Nat.Div0.mul_div_le (num_observations data - batch_index data) b)
    as Hle.
  apply (batch_at_fits b (moved (batch_index data + j * b) false data)).
  - apply feeder_ok_moved, Hok.
  - simpl. nia.
Qed.

Section TrainLoop.
Context {RS : RandomState}.
Variable model : Type.
Variables batch_size num_features : nat.
Variable dropout_rate : R.
Variable session_run_optimizer : model -> feed_dict R -> option model.
Variable session_run_loss : model -> feed_dict R -> option R.

Hypothesis optimizer_defined :
  forall m fd, feed_fits batch_size num_features fd = true ->
               session_run_optimizer m fd <> None.
Hypothesis losses_defined :
  forall m fd, feed_fits batch_size num_features fd = true ->
               exists l, session_run_loss m fd = Some l /\ 0 <= l.

Lemma train_steps_on_fitting_feeds (n : nat) :
  forall (m : model) (td : TensorFlowData R) (g : rng),
    batch_ready R batch_size td ->
    num_predictors td = num_features ->
    exists m' td' g',
      _train_steps batch_size dropout_rate session_run_optimizer n m td g
      = Some (m', td', g')
      /\ batch_ready R batch_size td'
      /\ num_predictors td' = num_features.
Proof.
  induction n as [|n IH]; intros m td g Hready HF.
  - exists m, td, g. repeat split; try apply Hready. exact HF.
  - rewrite train_steps_S.
    destruct (get_batch_ready R batch_size td g Hready)
      as (td1 & g1 & Hget & Hready1 & _ & HF1 & _).
    rewrite Hget. run_bind.
    destruct (session_run_optimizer m
                (with_dropout dropout_rate (batch_at batch_size td)))
      as [m1|] eqn:Eopt.
    + run_bind. apply IH; [exact Hready1 | congruence].
    + exfalso. refine (optimizer_defined _ _ _ Eopt).
      rewrite feed_fits_with_dropout, <- HF.
      destruct Hready as [Hok Hfit]. apply batch_at_fits; assumption.
Qed.

Lemma train_loop_runs (score_fuel s p nv : nat) :
  (1 <= p)%nat -> (1 <= batch_size)%nat -> (nv / batch_size < score_fuel)%nat ->
  forall (fuel c : nat) (m : model) (log : fit_log)
         (td vd : TensorFlowData R) (g : rng),
    batch_ready R batch_size td ->
    num_predictors td = num_features ->
    batch_ready R batch_size vd ->
    num_predictors vd = num_features ->
    reached_end vd = false ->
    num_observations vd = nv ->
    (rounds_left s p c < fuel)%nat ->
    exists m' log' td' vd' g',
      train_loop batch_size dropout_rate session_run_optimizer session_run_loss
                 fuel score_fuel s p c m log td vd g
      = Some (m', log', td', vd', g')
      /\ batch_number log'
         = batch_number log
           ++ map (fun i => (c + (i + 1) * p)%nat) (seq 0 (rounds_left s p c))
      /\ length (validation_score log')
         = (length (validation_score log) + rounds_left s p c)%nat
      /\ batch_ready R batch_size td'
      /\ batch_ready R batch_size vd'
      /\ reached_end vd' = false.
Proof.
  intros Hp Hb Hsf.
  induction fuel as [|fuel IH];
    intros c m log td vd g Htd HtF Hvd HvF Hflag Hnv Hfuel; [lia|].
  rewrite train_loop_S.
  destruct (Nat.ltb_spec c s) as [Hc|Hc].
  - destruct (train_steps_on_fitting_feeds p m td g Htd HtF)
      as (m1 & td1 & g1 & Hsteps & Htd1 & HtF1).
    rewrite Hsteps. run_bind.
    destruct Hvd as [Hvok Hvfit].
    destruct (score_outcome batch_size (session_run_loss m1) vd g1 score_fuel)
      as (v & Hscore & _); try assumption.
    { intros b Hin. apply losses_defined.
      rewrite feed_fits_with_dropout, <- HvF.
      apply epoch_batches_fit; assumption. }
    { eapply Nat.le_lt_trans; [|exact Hsf].
      rewrite Hnv. apply Nat.Div0.div_le_mono. lia. }
    rewrite Hscore. run_bind.
    destruct (epoch_end_ready R batch_size vd g1 Hvok)
      as (Hvd1 & Hidx1 & Hend1 & Hn1 & HvF1 & _); [lia|].
    rewrite (rounds_left_step s p c Hp Hc) in Hfuel |- *.
    destruct (IH (c + p)%nat m1
                {| batch_number := batch_number log ++ [(c + p)%nat];
                   validation_score := validation_score log ++ [Num v] |}
                td1 (fst (epoch_end R vd g1)) (snd (epoch_end R vd g1))
                Htd1 HtF1 Hvd1)
      as (m' & log' & td' & vd' & g' & Hrun & Hnum & Hlen & Hrest);
      [congruence | exact Hend1 | congruence | lia |].
    exists m', log', td', vd', g'.
    split; [exact Hrun|]. split; [|split; [|exact Hrest]].
    + rewrite Hnum. simpl batch_number. rewrite <- app_assoc.
      f_equal. rewrite map_seq_S. simpl app. f_equal; [f_equal; lia|].
      apply map_ext. intros i. lia.
    + rewrite Hlen. simpl validation_score. rewrite length_app. simpl. lia.
  - rewrite (rounds_left_done s p c Hp Hc).
    exists m, log, td, vd, g. simpl. rewrite app_nil_r, Nat.add_0_r.
    split; [reflexivity|]. split; [reflexivity|]. split; [reflexivity|].
    split; [exact Htd|]. split; [exact Hvd | exact Hflag].
Qed.

(** When the optimizer and the loss are defined (the loss not negative) on
    the feeds that fit the placeholders, and both feeders have the model's
    feature count, [train] with [print_every >= 1] runs
    [ceil(training_steps / print_every)] rounds of [print_every] steps and
    one scoring each: the log gains the step counts
    [print_every, 2 print_every, ...] and as many scores.  The last count is
    the first multiple of [print_every] that reaches [training_steps], so it
    exceeds [training_steps] when [print_every] does not divide it. *)
Theorem train_logs_every_round
  (fuel score_fuel training_steps print_every : nat)
  (m : model) (log : fit_log) (td vd : TensorFlowData R) (g : rng) :
  (1 <= print_every)%nat ->
  (1 <= batch_size)%nat ->
  batch_ready R batch_size td ->
  num_predictors td = num_features ->
  batch_ready R batch_size vd ->
  num_predictors vd = num_features ->
  reached_end vd = false ->
  (num_observations vd / batch_size < score_fuel)%nat ->
  let rounds := ((training_steps + (print_every - 1)) / print_every)%nat in
  (rounds < fuel)%nat ->
  exists m' log' td' vd' g',
    train batch_size dropout_rate session_run_optimizer session_run_loss
          fuel score_fuel m log td vd training_steps print_every g
    = Some (m', log', td', vd', g')
    /\ batch_number log'
       = batch_number log
         ++ map (fun i => ((i + 1) * print_every)%nat) (seq 0 rounds)
    /\ length (validation_score log')
       = (length (validation_score log) + rounds)%nat
    /\ (training_steps <= rounds * print_every < training_steps + print_every)%nat.
Proof.
  intros Hp Hb Htd HtF Hvd HvF Hflag Hsf rounds Hfuel.
  assert (Hr : rounds_left training_steps print_every 0 = rounds).
  { unfold rounds_left, rounds. rewrite Nat.sub_0_r. reflexivity. }
  destruct (train_loop_runs score_fuel training_steps print_every
              (num_observations vd) Hp Hb Hsf fuel 0%nat m log td vd g
              Htd HtF Hvd HvF Hflag eq_refl)
    as (m' & log' & td' & vd' & g' & Hrun & Hnum & Hlen & _);
    [rewrite Hr; exact Hfuel|].
  rewrite Hr in Hnum, Hlen.
  exists m', log', td', vd', g'.
  split; [exact Hrun|]. split; [exact Hnum|]. split; [exact Hlen|].
  unfold rounds.
  pose proof (Nat.div_mod_eq (training_steps + (print_every - 1)) print_every)
    as Hdm.
  pose proof (Nat.mod_upper_bound (training_steps + (print_every - 1))
                print_every) as Hmod.
  nia.
Qed.
End TrainLoop.

(** Scoring the sample data with the loss of a forest of one tree of depth
    one, all parameters 0, in batches of two. *)
Lemma score_leaves_feeder_at_epoch_start_witness :
  exists v data' g',
    score (RS := rotating_random) 2
          (session_run_loss 1 1 1 2 (fun _ _ _ _ => 0) (fun _ _ _ _ => 0)
                            (fun _ _ _ _ => 0) (fun _ _ _ => 0) (fun _ _ _ => 0))
          4 (sample_data false) 0%nat
    = Some (Num v, data', g')
    /\ 0 <= v
    /\ batch_index data' = 0%nat
    /\ reached_end data' = false
    /\ batch_ready R 2 data'
    /\ Permutation (paired_rows data') (paired_rows (sample_data false))
    /\ (shuffle_each_epoch (sample_data false) = false ->
        batch_index (sample_data false) = 0%nat ->
        data' = sample_data false /\ g' = 0%nat).
Proof.
  assert (Hok : feeder_ok (sample_data false)).
  { unfold feeder_ok. simpl. repeat split; repeat constructor. }
  apply (@score_leaves_feeder_at_epoch_start rotating_random 2
           (session_run_loss 1 1 1 2 (fun _ _ _ _ => 0) (fun _ _ _ _ => 0)
                             (fun _ _ _ _ => 0) (fun _ _ _ => 0) (fun _ _ _ => 0))
           (sample_data false) 0%nat 4).
  - intros b Hin.
    apply forest_loss_on_fitting_feeds; [lia | lia |].
    rewrite feed_fits_with_dropout.
    apply (epoch_batches_fit 2 (sample_data false) b); [lia | exact Hok | exact Hin].
  - exact Hok.
  - reflexivity.
  - lia.
  - simpl. lia.
  - simpl. lia.
Defined.

(** The log theorem for a forest of one tree of depth one, all parameters 0,
    with a step counter for the model: five training steps in rounds of two
    make three rounds, logged at 2, 4 and 6. *)
Lemma train_logs_every_round_witness :
  exists m' log' td' vd' g',
    train (RS := rotating_random) 2 (1 / 2)
          (fun (m : nat) _ => Some (S m))
          (fun (_ : nat) =>
             session_run_loss 1 1 1 2 (fun _ _ _ _ => 0) (fun _ _ _ _ => 0)
                              (fun _ _ _ _ => 0) (fun _ _ _ => 0)
                              (fun _ _ _ => 0))
          4 4 0%nat {| batch_number := []; validation_score := [] |}
          (sample_data false) (sample_data false) 5 2 0%nat
    = Some (m', log', td', vd', g')
    /\ batch_number log' = [] ++ map (fun i => ((i + 1) * 2)%nat) (seq 0 ((5 + (2 - 1)) / 2))
    /\ length (validation_score log') = (0 + (5 + (2 - 1)) / 2)%nat
    /\ (5 <= (5 + (2 - 1)) / 2 * 2 < 5 + 2)%nat.
Proof.
  assert (Hready : batch_ready R 2 (sample_data false)).
  { split; [|simpl; lia].
    unfold feeder_ok. simpl. repeat split; repeat constructor. }
  apply (@train_logs_every_round rotating_random nat 2 1 (1 / 2)
           (fun (m : nat) _ => Some (S m))
           (fun (_ : nat) =>
              session_run_loss 1 1 1 2 (fun _ _ _ _ => 0) (fun _ _ _ _ => 0)
                               (fun _ _ _ _ => 0) (fun _ _ _ => 0)
                               (fun _ _ _ => 0))).
  - intros m fd _. discriminate.
  - intros m fd Hfd. apply forest_loss_on_fitting_feeds; [lia | lia | exact Hfd].
  - lia.
  - lia.
  - exact Hready.
  - reflexivity.
  - exact Hready.
  - reflexivity.
  - reflexivity.
  - simpl. lia.
  - simpl. lia.
Defined.

Section ScoreAfterReset.
Context {RS : RandomState}.
Variable batch_size : nat.
Variable session_run_loss : feed_dict R -> option R.

(** Whatever the cursor and the flag were, [score] after
    [reset_batch_index] is a full pass from row 0: it evaluates the loss on
    the batches at offsets [0, B, ..., (N / B - 1) B] and ends the epoch. *)
Theorem score_after_reset_is_full_pass
  (data : TensorFlowData R) (g : rng) (fuel : nat) :
  feeder_ok data ->
  (1 <= batch_size <= num_observations data)%nat ->
  (num_observations data / batch_size < fuel)%nat ->
  score batch_size session_run_loss fuel (reset_batch_index data) g
  = (losses <- mapM (fun j =>
                       session_run_loss
                         (with_dropout 1
                            (batch_at batch_size
                               (moved (j * batch_size) false data))))
                    (seq 0 (num_observations data / batch_size)) ;;
     result <- math_sqrt (np_mean losses) ;;
     Some (result, fst (epoch_end R data g), snd (epoch_end R data g))).
Proof.
  intros Hok [Hb HbN] Hfuel.
  change (reset_batch_index data) with (moved 0 false data).
  assert (Hrun := run_epoch_exact R batch_size Hb
                    (num_observations data / batch_size)
                    (moved 0 false data) g (feeder_ok_moved R data 0 false Hok)
                    eq_refl HbN).
  simpl num_observations in Hrun. simpl batch_index in Hrun.
  rewrite Nat.sub_0_r in Hrun. specialize (Hrun (le_n _)).
  unfold score.
  rewrite (score_loop_run_epoch batch_size session_run_loss _ fuel
             (moved 0 false data) g [] _ _ _ Hfuel eq_refl Hrun).
  rewrite mapM_map.
  destruct (mapM _ (seq 0 (num_observations data / batch_size)))
    as [losses|]; [|reflexivity].
  run_bind. simpl app. rewrite concat_singletons. reflexivity.
Qed.
End ScoreAfterReset.

(** A full pass over the sample data after a reset, entered with the flag
    set. *)
Lemma score_after_reset_is_full_pass_witness :
  score (RS := rotating_random) 2 (fun _ => Some 4) 4
        (reset_batch_index (sample_data true)) 0%nat
  = (losses <- mapM (fun j =>
                       (fun _ => Some 4)
                         (with_dropout 1
                            (batch_at 2 (moved (j * 2) false (sample_data true)))))
                    (seq 0 (num_observations (sample_data true) / 2)) ;;
     result <- math_sqrt (np_mean losses) ;;
     Some (result,
           fst (epoch_end (RS := rotating_random) R (sample_data true) 0%nat),
           snd (epoch_end (RS := rotating_random) R (sample_data true) 0%nat))).
Proof.
  apply (@score_after_reset_is_full_pass rotating_random 2 (fun _ => Some 4)
           (sample_data true) 0%nat 4).
  - unfold feeder_ok. simpl. repeat split; repeat constructor.
  - simpl. lia.
  - simpl. lia.
Defined.

(** Seed 42 from two different random states. *)
Lemma shuffle_nonzero_seed_deterministic_witness :
  shuffle (RS := rotating_random) (Some 42%Z) (sample_feeder false) 1%nat
  = shuffle (RS := rotating_random) (Some 42%Z) (sample_feeder false) 2%nat.
Proof.
  apply (@shuffle_nonzero_seed_deterministic rotating_random nat 42%Z
           (sample_feeder false) 1%nat 2%nat).
  discriminate.
Defined.

Lemma get_batch_predictors_form {RS : RandomState} (A : Type) (b : nat)
  (self self' : TensorFlowData A) (g g' : rng) (fd : feed_dict A) :
  get_batch b self g = Some (fd, self', g') ->
  exists blocks, predictors_0 fd = Arr3 b (num_predictors self) blocks.
Proof.
  unfold get_batch. intros H.
  apply bind_Some in H. destruct H as (ps & _ & H).
  apply bind_Some in H. destruct H as (p & Hp & H).
  apply bind_Some in H. destruct H as (rs & _ & H).
  apply bind_Some in H. destruct H as (r & _ & H).
  apply bind_Some in H. destruct H as ([self1 g1] & _ & H).
  injection H as <- _ _. simpl.
  unfold reshape3 in Hp.
  destruct (_ =? _)%nat; [|discriminate Hp].
  injection Hp as <-. eexists. reflexivity.
Qed.

Section ForestFeed.
Context {RS : RandomState}.
Variables F T D B : nat.
Variables sw sb ss : nat -> nat -> nat -> nat -> R.
Variables tw tb : nat -> nat -> nat -> R.

(** A feeder whose feature count is not the model's cannot be scored: the
    first batch does not fit the placeholder and the run raises, whatever
    its rows are. *)
Theorem forest_score_rejects_other_feature_count
  (data : TensorFlowData R) (g : rng) (fuel : nat) :
  reached_end data = false ->
  num_predictors data <> F ->
  score B (session_run_loss F T D B sw sb ss tw tb) fuel data g = None.
Proof.
  intros Hflag HF. unfold score.
  destruct fuel as [|fuel]; [reflexivity|].
  rewrite score_loop_S, Hflag.
  destruct (get_batch B (moved (batch_index data) false data) g)
    as [[[fd data2] g2]|] eqn:Eget; [|reflexivity].
  run_bind.
  destruct (get_batch_predictors_form R B _ _ _ _ _ Eget) as [blocks Hfd].
  simpl num_predictors in Hfd.
  unfold session_run_loss at 1. unfold with_dropout at 1. simpl predictors_0.
  rewrite Hfd.
  destruct (response_0 _); try reflexivity.
  apply Nat.eqb_neq in HF. rewrite HF, andb_false_r. reflexivity.
Qed.
End ForestFeed.

(** A forest over two features scored on the one-feature sample data. *)
Lemma forest_score_rejects_other_feature_count_witness :
  score (RS := rotating_random) 2
        (session_run_loss 2 1 1 2 (fun _ _ _ _ => 0) (fun _ _ _ _ => 0)
                          (fun _ _ _ _ => 0) (fun _ _ _ => 0) (fun _ _ _ => 0))
        4 (sample_data false) 0%nat
  = None.
Proof.
  apply (@forest_score_rejects_other_feature_count rotating_random 2 1 1 2
           (fun _ _ _ _ => 0) (fun _ _ _ _ => 0) (fun _ _ _ _ => 0)
           (fun _ _ _ => 0) (fun _ _ _ => 0) (sample_data false) 0%nat 4).
  - reflexivity.
  - simpl. lia.
Defined.



Section ForestBounds.
Variables F T D B : nat.
Variables sw sb ss : nat -> nat -> nat -> nat -> R.
Variables tw tb : nat -> nat -> nat -> R.


End ForestBounds.


(** * The path probabilities in binary32 *)


